(** * The point-tracker worker of opentrack ([ftnoir_tracker_pt.cpp])

    A shallow embedding of [Tracker]: its command flags, the pending
    settings slot, the worker loop [run], the settings hot-apply
    ([apply] / [apply_inner]), the pose accessor [data] and the
    construction / destruction path.

    Conventions of the model.
    - [float] and [double] values are idealised as real numbers; the
      OpenCV matrix operations and [<cmath>] functions are given their
      mathematical meaning on finite arguments.
    - The camera, the point extractor's detector, the point tracker and
      the display widget are collaborators whose code lives elsewhere;
      they are the fields of the class [Collaborators].
    - A C++ pointer is a [ptr]: [NULL] or the address of an object; a
      method that dereferences [NULL] ends in [NullDeref]. *)

From Stdlib Require Import Reals Lra ZArith List String Bool Lia.
Import ListNotations.

(* ------------------------------------------------------------------ *)
(** ** OpenCV small matrices ([cv::Vec3f], [cv::Matx33f]) *)

Module Cv.
Local Open Scope R_scope.

Record Vec2f := mkVec2f { p0 : R; p1 : R }.

Record Vec3f := mkVec3f { v0 : R; v1 : R; v2 : R }.

Record Matx33f := mkMatx33f {
  m00 : R; m01 : R; m02 : R;
  m10 : R; m11 : R; m12 : R;
  m20 : R; m21 : R; m22 : R }.

(** [M(i,j)] *)
Definition at_ (M : Matx33f) (i j : nat) : R :=
  match i, j with
  | 0%nat, 0%nat => m00 M | 0%nat, 1%nat => m01 M | 0%nat, 2%nat => m02 M
  | 1%nat, 0%nat => m10 M | 1%nat, 1%nat => m11 M | 1%nat, 2%nat => m12 M
  | 2%nat, 0%nat => m20 M | 2%nat, 1%nat => m21 M | 2%nat, 2%nat => m22 M
  | _, _ => 0
  end.

(** [v[i]] *)
Definition nth3 (v : Vec3f) (i : nat) : R :=
  match i with 0%nat => v0 v | 1%nat => v1 v | 2%nat => v2 v | _ => 0 end.

Definition build (f : nat -> nat -> R) : Matx33f :=
  let i0 := 0%nat in let i1 := 1%nat in let i2 := 2%nat in
  mkMatx33f (f i0 i0) (f i0 i1) (f i0 i2)
            (f i1 i0) (f i1 i1) (f i1 i2)
            (f i2 i0) (f i2 i1) (f i2 i2).

Definition build3 (f : nat -> R) : Vec3f :=
  mkVec3f (f 0%nat) (f 1%nat) (f 2%nat).

(** [Matx33f::eye()] *)
Definition eye : Matx33f :=
  build (fun i j => if Nat.eqb i j then 1 else 0).

Definition zero3 : Vec3f := mkVec3f 0 0 0.

(** The inner loop of OpenCV's product: [s = 0; for k: s += a(i,k)*b(k,j)]. *)
Definition dot3 (a b : nat -> R) : R :=
  fold_left (fun s k => s + a k * b k) [0; 1; 2]%nat 0.

(** [A * B] *)
Definition mul (A B : Matx33f) : Matx33f :=
  build (fun i j => dot3 (fun k => at_ A i k) (fun k => at_ B k j)).

(** [A * v] *)
Definition mulv (A : Matx33f) (v : Vec3f) : Vec3f :=
  build3 (fun i => dot3 (fun k => at_ A i k) (nth3 v)).

(** [u + v] *)
Definition addv (u v : Vec3f) : Vec3f :=
  build3 (fun i => nth3 u i + nth3 v i).

(** [A.t()] *)
Definition transpose (A : Matx33f) : Matx33f :=
  build (fun i j => at_ A j i).

(** [atan2] of [<cmath>] on finite arguments: the angle of the point
    [(x, y)], in [(-PI, PI]], and [0] at the origin. *)
Definition atan2 (y x : R) : R :=
  if Rlt_dec 0 x then atan (y / x)
  else if Rlt_dec x 0 then
         if Rle_dec 0 y then atan (y / x) + PI else atan (y / x) - PI
  else if Rlt_dec 0 y then PI / 2
  else if Rlt_dec y 0 then - (PI / 2)
  else 0.

End Cv.

(* ------------------------------------------------------------------ *)
(** ** Rigid transforms ([Affine]) *)

Module Aff.
Import Cv.
Local Open Scope R_scope.

Record Affine := mkAffine { R_ : Matx33f; t_ : Vec3f }.

(** [Affine()] *)
Definition identity : Affine := mkAffine eye zero3.

(** Modelled from the spec: the composition [X * Y] of two rigid
    transforms, declared with the class [Affine] outside this file.  The
    composed transform first applies [Y], then [X]: its rotation is the
    product of the rotations and its translation is [X] applied to [Y]'s
    translation. *)
Definition compose (X Y : Affine) : Affine :=
  mkAffine (mul (R_ X) (R_ Y)) (addv (mulv (R_ X) (t_ Y)) (t_ X)).

End Aff.

(* ------------------------------------------------------------------ *)
(** ** Rotations about the camera axes *)

Module Rot.
Import Cv.
Local Open Scope R_scope.

(** The rotation by the angle [a] about the camera's x axis. *)
Definition about_x (a : R) : Matx33f :=
  mkMatx33f 1    0         0
            0 (cos a) (- sin a)
            0 (sin a)   (cos a).

(** The rotation by the angle [a] about the camera's y axis. *)
Definition about_y (a : R) : Matx33f :=
  mkMatx33f   (cos a)  0 (sin a)
                 0     1    0
            (- sin a)  0 (cos a).

(** The rotation by the angle [a] about the camera's z axis. *)
Definition about_z (a : R) : Matx33f :=
  mkMatx33f (cos a) (- sin a) 0
            (sin a)   (cos a) 0
               0         0    1.

End Rot.

(* ------------------------------------------------------------------ *)
(** ** Plain data of the tracker *)

(** A C++ pointer: null, or the address of a live object. *)
Inductive ptr : Set := NULL | Ptr (a : nat).

(** What a method call ends in: it returns, or it dereferences [NULL]. *)
Inductive Outcome (A : Type) : Type :=
| Done (a : A)
| NullDeref.
Arguments Done {A} a.
Arguments NullDeref {A}.

Definition bind {A B : Type} (o : Outcome A) (k : A -> Outcome B) : Outcome B :=
  match o with
  | Done a => k a
  | NullDeref => NullDeref
  end.

Notation "x <- c ;; k" := (bind c (fun x => k))
  (at level 61, c at next level, right associativity).

(** [enum Command] *)
Inductive Command : Set := ABORT | PAUSE.

(** Indices of the output array of [data]. *)
Inductive Axis : Set := TX | TY | TZ | Yaw | Pitch | Roll.

Definition Axis_eq_dec (a b : Axis) : {a = b} + {a <> b}.
Proof. decide equality. Defined.

(** The caller's array [THeadPoseData *data]. *)
Definition THeadPoseData : Type := Axis -> R.

(** [data[ax] = v] *)
Definition store (d : THeadPoseData) (ax : Axis) (v : R) : THeadPoseData :=
  fun a => if Axis_eq_dec a ax then v else d a.

(** The fields of [settings] that [apply_inner] reads.  The geometry and
    size fields are taken at the value they have once converted to
    floating point. *)
Record settings := mkSettings {
  cam_index : Z;
  cam_res_x : Z;
  cam_res_y : Z;
  cam_fps : Z;
  threshold : Z;
  threshold_secondary : Z;
  min_point_size : R;
  max_point_size : R;
  m01_x : R; m01_y : R; m01_z : R;
  m02_x : R; m02_y : R; m02_z : R;
  t_MH_x : R; t_MH_y : R; t_MH_z : R }.

(** The public fields of [PointExtractor]. *)
Record PointExtractor := mkPointExtractor {
  threshold_val : Z;
  threshold_secondary_val : Z;
  min_size : R;
  max_size : R }.

(** The widgets the tracker creates or looks at: the layout installed in
    each [QFrame], and the next free address of [new]. *)
Record Gui := mkGui {
  layout_of : nat -> ptr;
  heap_top : nat }.

Definition set_layout (f : nat) (l : ptr) (g : Gui) : Gui :=
  mkGui (fun a => if Nat.eqb a f then l else layout_of g a) (heap_top g).

(** [new T(...)]: a fresh address. *)
Definition alloc (g : Gui) : nat * Gui :=
  (heap_top g, mkGui (layout_of g) (S (heap_top g))).

(** Modelled from the spec: [PointModel::N_POINTS], declared with the
    point model outside this file; the model's required point count is
    exactly 3. *)
Definition N_POINTS : nat := 3.

(** Modelled from the spec: the constant [rad2deg], declared in the
    tracker's header; it converts radians to degrees. *)
Definition rad2deg : R := (180 / PI)%R.

(* ------------------------------------------------------------------ *)
(** ** The class [Tracker] *)

(** *** Collaborators *)

(** The objects the tracker works with and whose code is elsewhere. *)
Class Collaborators : Type := {
  Frame : Type;
  Camera : Type;
  PointModel : Type;
  PointTracker : Type;
  (** [PointModel(M01, M02)] *)
  PointModel_make : Cv.Vec3f -> Cv.Vec3f -> PointModel;
  (** [camera.set_device_index], [set_res], [set_fps], [start], [get_frame] *)
  set_device_index : Z -> Camera -> Camera;
  set_res : Z -> Z -> Camera -> Camera;
  set_fps : Z -> Camera -> Camera;
  camera_start : Camera -> Camera;
  get_frame : R -> Camera -> bool * Frame * Camera;
  (** [frame.empty()] *)
  frame_empty : Frame -> bool;
  (** [point_extractor.extract_points(frame)]: the detections, and the
      frame as the extractor leaves it. *)
  extract_points : PointExtractor -> Frame -> list Cv.Vec2f * Frame;
  (** The two [cv::line] calls that mark one detection on the frame. *)
  draw_cross : Frame -> Cv.Vec2f -> Frame;
  (** [point_tracker.track(points, model)] and [point_tracker.pose()] *)
  track : list Cv.Vec2f -> PointModel -> PointTracker -> PointTracker;
  pose : PointTracker -> Aff.Affine;
  (** The settings objects, which the callers of [apply] own, by address;
      [addr_s] is the address of the member [s]. *)
  settings_at : nat -> settings;
  addr_s : nat }.

(** The values of the enumerators [ABORT] and [PAUSE], declared in the
    tracker's header. *)
Class CommandBits : Type := {
  abort_bit : Z;
  pause_bit : Z }.

Section Worker.

Context {C : Collaborators} {B : CommandBits}.

Definition bits (c : Command) : Z :=
  match c with
  | ABORT => abort_bit
  | PAUSE => pause_bit
  end.

(** *** Observable effects *)

(** Calls that leave the tracker: [qDebug] lines, and the calls to the
    camera, the extractor, the point tracker and the video widget. *)
Inductive Event : Type :=
| Debug (msg : string)
| GetFrame (dt : R)
| Extract (f : Frame)
| Track (pts : list Cv.Vec2f)
| Display (f : Frame).

(** *** State *)

(** The members of [Tracker], the widgets it points to, whether its
    thread was started, and the effects so far (most recent first). *)
Record Tracker := mkTracker {
  commands : Z;
  video_widget : ptr;
  video_frame : ptr;
  new_settings : ptr;
  model : PointModel;
  camera : Camera;
  point_extractor : PointExtractor;
  point_tracker : PointTracker;
  t_MH : Cv.Vec3f;
  gui : Gui;
  started : bool;
  trace : list Event }.

Definition set_commands (c : Z) (st : Tracker) : Tracker :=
  mkTracker c (video_widget st) (video_frame st) (new_settings st)
    (model st) (camera st) (point_extractor st) (point_tracker st)
    (t_MH st) (gui st) (started st) (trace st).

Definition set_video_widget (p : ptr) (st : Tracker) : Tracker :=
  mkTracker (commands st) p (video_frame st) (new_settings st)
    (model st) (camera st) (point_extractor st) (point_tracker st)
    (t_MH st) (gui st) (started st) (trace st).

Definition set_video_frame (p : ptr) (st : Tracker) : Tracker :=
  mkTracker (commands st) (video_widget st) p (new_settings st)
    (model st) (camera st) (point_extractor st) (point_tracker st)
    (t_MH st) (gui st) (started st) (trace st).

Definition set_new_settings (p : ptr) (st : Tracker) : Tracker :=
  mkTracker (commands st) (video_widget st) (video_frame st) p
    (model st) (camera st) (point_extractor st) (point_tracker st)
    (t_MH st) (gui st) (started st) (trace st).

Definition set_model (m : PointModel) (st : Tracker) : Tracker :=
  mkTracker (commands st) (video_widget st) (video_frame st) (new_settings st)
    m (camera st) (point_extractor st) (point_tracker st)
    (t_MH st) (gui st) (started st) (trace st).

Definition set_camera (c : Camera) (st : Tracker) : Tracker :=
  mkTracker (commands st) (video_widget st) (video_frame st) (new_settings st)
    (model st) c (point_extractor st) (point_tracker st)
    (t_MH st) (gui st) (started st) (trace st).

Definition set_point_extractor (e : PointExtractor) (st : Tracker) : Tracker :=
  mkTracker (commands st) (video_widget st) (video_frame st) (new_settings st)
    (model st) (camera st) e (point_tracker st)
    (t_MH st) (gui st) (started st) (trace st).

Definition set_point_tracker (p : PointTracker) (st : Tracker) : Tracker :=
  mkTracker (commands st) (video_widget st) (video_frame st) (new_settings st)
    (model st) (camera st) (point_extractor st) p
    (t_MH st) (gui st) (started st) (trace st).

Definition set_t_MH (v : Cv.Vec3f) (st : Tracker) : Tracker :=
  mkTracker (commands st) (video_widget st) (video_frame st) (new_settings st)
    (model st) (camera st) (point_extractor st) (point_tracker st)
    v (gui st) (started st) (trace st).

Definition set_gui (g : Gui) (st : Tracker) : Tracker :=
  mkTracker (commands st) (video_widget st) (video_frame st) (new_settings st)
    (model st) (camera st) (point_extractor st) (point_tracker st)
    (t_MH st) g (started st) (trace st).

Definition set_started (b : bool) (st : Tracker) : Tracker :=
  mkTracker (commands st) (video_widget st) (video_frame st) (new_settings st)
    (model st) (camera st) (point_extractor st) (point_tracker st)
    (t_MH st) (gui st) b (trace st).

Definition emit (e : Event) (st : Tracker) : Tracker :=
  mkTracker (commands st) (video_widget st) (video_frame st) (new_settings st)
    (model st) (camera st) (point_extractor st) (point_tracker st)
    (t_MH st) (gui st) (started st) (e :: trace st).

(** *** Construction and command flags *)

(** [Tracker::Tracker()]; the collaborators and the widgets come as
    their own constructors leave them. *)
Definition Tracker_ctor (m : PointModel) (c : Camera) (e : PointExtractor)
    (p : PointTracker) (g : Gui) : Tracker :=
  mkTracker 0 NULL NULL NULL m c e p Cv.zero3 g false [].

(** [commands |= command] *)
Definition set_command (command : Command) (st : Tracker) : Tracker :=
  set_commands (Z.lor (commands st) (bits command)) st.

(** [commands &= ~command] *)
Definition reset_command (command : Command) (st : Tracker) : Tracker :=
  set_commands (Z.land (commands st) (Z.lnot (bits command))) st.

(** [Tracker::StopTracker] *)
Definition StopTracker (exit : bool) (st : Tracker) : Tracker :=
  set_command PAUSE st.

(** *** Settings hot-apply *)

(** [Tracker::apply]: [new_settings = &s]. *)
Definition apply (a : nat) (st : Tracker) : Tracker :=
  set_new_settings (Ptr a) st.

(** The body of [apply_inner] once a snapshot was taken from the slot. *)
Definition apply_settings (s : settings) (st : Tracker) : Tracker :=
  let st := emit (Debug "Tracker:: Applying settings") st in
  let M01 := Cv.mkVec3f (m01_x s) (m01_y s) (m01_z s) in
  let M02 := Cv.mkVec3f (m02_x s) (m02_y s) (m02_z s) in
  let st := set_model (PointModel_make M01 M02) st in
  let st := set_camera (set_device_index (cam_index s) (camera st)) st in
  let st := set_camera (set_res (cam_res_x s) (cam_res_y s) (camera st)) st in
  let st := set_camera (set_fps (cam_fps s) (camera st)) st in
  let st := set_point_extractor
              (mkPointExtractor (threshold s)
                 (threshold_secondary_val (point_extractor st))
                 (min_size (point_extractor st))
                 (max_size (point_extractor st))) st in
  let st := set_point_extractor
              (mkPointExtractor (threshold_val (point_extractor st))
                 (threshold_secondary s)
                 (min_size (point_extractor st))
                 (max_size (point_extractor st))) st in
  let st := set_point_extractor
              (mkPointExtractor (threshold_val (point_extractor st))
                 (threshold_secondary_val (point_extractor st))
                 (min_point_size s)
                 (max_size (point_extractor st))) st in
  let st := set_point_extractor
              (mkPointExtractor (threshold_val (point_extractor st))
                 (threshold_secondary_val (point_extractor st))
                 (min_size (point_extractor st))
                 (max_point_size s)) st in
  let st := set_t_MH (Cv.mkVec3f (t_MH_x s) (t_MH_y s) (t_MH_z s)) st in
  emit (Debug "Tracker::apply ends") st.

(** [Tracker::apply_inner]: [tmp = new_settings.exchange(nullptr)]. *)
Definition apply_inner (st : Tracker) : Tracker :=
  let tmp := new_settings st in
  let st := set_new_settings NULL st in
  match tmp with
  | NULL => st
  | Ptr a => apply_settings (settings_at a) st
  end.

(** *** The worker loop *)

(** One pass through the body of the [while] of [Tracker::run]; [dt] is
    [time.elapsed() * 1e-9].  The mutex is held from the extraction to
    the end of the [if] block. *)
Definition loop_body (dt : R) (st : Tracker) : Outcome Tracker :=
  let st := apply_inner st in
  let '(new_frame, frame, cam) := get_frame dt (camera st) in
  let st := emit (GetFrame dt) (set_camera cam st) in
  if new_frame && negb (frame_empty frame) then
    let '(points, marked) := extract_points (point_extractor st) frame in
    let st := emit (Extract frame) st in
    let marked := fold_left draw_cross points marked in
    let st :=
      if Nat.eqb (List.length points) N_POINTS
      then emit (Track points)
             (set_point_tracker
                (track points (model st) (point_tracker st)) st)
      else st in
    match video_widget st with
    | NULL => NullDeref
    | Ptr _ => Done (emit (Display marked) st)
    end
  else Done st.

(** What the owner thread does to the worker's shared members. *)
Inductive OwnerOp : Set :=
| OpSet (c : Command)
| OpReset (c : Command)
| OpApply (a : nat).

Definition owner_op (st : Tracker) (op : OwnerOp) : Tracker :=
  match op with
  | OpSet c => set_command c st
  | OpReset c => reset_command c st
  | OpApply a => apply a st
  end.

Definition owner_ops (ops : list OwnerOp) (st : Tracker) : Tracker :=
  fold_left owner_op ops st.

(** What the surroundings contribute to one pass of the loop: the owner's
    calls that land before the flag test, those that land between the
    test and the exchange of the settings slot, and the timer reading.
    A call that lands later in the body is seen at the next pass. *)
Record Tick := mkTick {
  before_test : list OwnerOp;
  after_test : list OwnerOp;
  elapsed : Z }.

Definition dt_of (tk : Tick) : R := (IZR (elapsed tk) * / 1000000000)%R.

(** [(commands & ABORT) == 0] *)
Definition loop_test (st : Tracker) : bool :=
  Z.eqb (Z.land (commands st) (bits ABORT)) 0.

(** How a run over finitely many passes ends: the loop was left, or it
    is about to test the flags again. *)
Inductive RunState : Type :=
| Exited (st : Tracker)
| Looping (st : Tracker).

(** [Tracker::run], one [Tick] per flag test. *)
Fixpoint run (sched : list Tick) (st : Tracker) : Outcome RunState :=
  match sched with
  | [] => Done (Looping st)
  | tk :: rest =>
      let st := owner_ops (before_test tk) st in
      if loop_test st then
        st' <- loop_body (dt_of tk) (owner_ops (after_test tk) st) ;;
        run rest st'
      else Done (Exited (emit (Debug "Tracker:: Thread stopping") st))
  end.

(** *** Start and destruction *)

(** [Tracker::start_tracker]; the thread is started by [start()]. *)
Definition start_tracker (parent_window : ptr) (st : Tracker) : Outcome Tracker :=
  let st := set_video_frame parent_window st in
  match video_frame st with
  | NULL => NullDeref
  | Ptr f =>
      let '(w, g) := alloc (gui st) in
      let st := set_video_widget (Ptr w) (set_gui g st) in
      let '(l, g) := alloc (gui st) in
      let st := set_gui (set_layout f (Ptr l) g) st in
      let st := apply addr_s st in
      let st := apply_inner st in
      let st := set_camera (camera_start (camera st)) st in
      Done (set_started true st)
  end.

(** [Tracker::~Tracker], entered when no pass of the loop is under way:
    [wait()] returns once the thread, if there is one, has left [run]. *)
Definition Tracker_dtor (st : Tracker) : Outcome Tracker :=
  let st := set_command ABORT st in
  let st := set_started false st in
  let st := set_video_widget NULL st in
  match video_frame st with
  | NULL => NullDeref
  | Ptr f =>
      match layout_of (gui st) f with
      | NULL => Done st
      | Ptr _ => Done (set_gui (set_layout f NULL (gui st)) st)
      end
  end.

(** *** The pose accessor *)

(** The matrix [R_EG] of [data]. *)
Definition R_EG : Cv.Matx33f :=
  (Cv.mkMatx33f   0    0  (-1)
                (-1)   0    0
                  0    1    0)%R.

(** The three [atan2] lines of [data]: [(alpha, beta, gamma)]. *)
Definition euler_angles (M : Cv.Matx33f) : R * R * R :=
  let beta := Cv.atan2 (- Cv.at_ M 2 0)
                (sqrt (Cv.at_ M 2 1 * Cv.at_ M 2 1
                       + Cv.at_ M 2 2 * Cv.at_ M 2 2))%R in
  let alpha := Cv.atan2 (Cv.at_ M 1 0) (Cv.at_ M 0 0) in
  let gamma := Cv.atan2 (Cv.at_ M 2 1) (Cv.at_ M 2 2) in
  (alpha, beta, gamma).

(** [Tracker::data]; the mutex is taken after the angles are computed,
    before the six stores. *)
Definition data (st : Tracker) (d : THeadPoseData) : THeadPoseData :=
  let X_CM := pose (point_tracker st) in
  let X_MH := Aff.mkAffine Cv.eye (t_MH st) in
  let X_GH := Aff.compose X_CM X_MH in
  let Rot := Aff.R_ X_GH in
  let t := Aff.t_ X_GH in
  let Rot := Cv.mul (Cv.mul R_EG Rot) (Cv.transpose R_EG) in
  let '(alpha, beta, gamma) := euler_angles Rot in
  let d := store d Yaw (rad2deg * alpha)%R in
  let d := store d Pitch (- rad2deg * beta)%R in
  let d := store d Roll (rad2deg * gamma)%R in
  let d := store d TX (Cv.nth3 t 0 / 10)%R in
  let d := store d TY (Cv.nth3 t 1 / 10)%R in
  let d := store d TZ (Cv.nth3 t 2 / 10)%R in
  d.

End Worker.

(* ------------------------------------------------------------------ *)
(** ** Views of the worker used in the statements *)

Section Views.

Context {C : Collaborators} {B : CommandBits}.

(** The state with the [PAUSE] bit of [commands] forced to one: what is
    left of a state when the value of that bit is forgotten. *)
Definition mask_pause (st : Tracker) : Tracker :=
  set_commands (Z.lor (commands st) pause_bit) st.

(** Two states that differ at most in the [PAUSE] bit. *)
Definition pause_eq (st1 st2 : Tracker) : Prop :=
  mask_pause st1 = mask_pause st2.

Definition touches_pause (op : OwnerOp) : bool :=
  match op with
  | OpSet PAUSE | OpReset PAUSE => true
  | _ => false
  end.

(** Two sequences of owner calls that differ at most in calls that set
    or reset [PAUSE]. *)
Inductive ops_sim : list OwnerOp -> list OwnerOp -> Prop :=
| sim_nil : ops_sim [] []
| sim_both op l1 l2 : ops_sim l1 l2 -> ops_sim (op :: l1) (op :: l2)
| sim_left op l1 l2 :
    touches_pause op = true -> ops_sim l1 l2 -> ops_sim (op :: l1) l2
| sim_right op l1 l2 :
    touches_pause op = true -> ops_sim l1 l2 -> ops_sim l1 (op :: l2).

Definition tick_sim (tk1 tk2 : Tick) : Prop :=
  ops_sim (before_test tk1) (before_test tk2)
  /\ ops_sim (after_test tk1) (after_test tk2)
  /\ elapsed tk1 = elapsed tk2.

(** Two runs that end the same way, in states that differ at most in
    the [PAUSE] bit; the effects are part of the state. *)
Definition run_sim (o1 o2 : Outcome RunState) : Prop :=
  match o1, o2 with
  | Done (Exited s1), Done (Exited s2) => pause_eq s1 s2
  | Done (Looping s1), Done (Looping s2) => pause_eq s1 s2
  | NullDeref, NullDeref => True
  | _, _ => False
  end.

(** The [ABORT] bit is set in [commands]. *)
Definition abort_set (st : Tracker) : Prop :=
  Z.land (commands st) abort_bit <> 0%Z.

Definition state_of (rs : RunState) : Tracker :=
  match rs with
  | Exited st => st
  | Looping st => st
  end.

(** The owner's calls to [apply] and the worker's calls to
    [apply_inner], in the order in which they reach the slot. *)
Inductive SlotOp : Set :=
| Request (a : nat)
| Consume.

Definition slot_op (st : Tracker) (op : SlotOp) : Tracker :=
  match op with
  | Request a => apply a st
  | Consume => apply_inner st
  end.

Definition is_request (op : SlotOp) : bool :=
  match op with Request _ => true | Consume => false end.

Definition is_applying (e : Event) : bool :=
  match e with
  | Debug msg => String.eqb msg "Tracker:: Applying settings"
  | _ => false
  end.

(** How many times settings were applied so far. *)
Definition applications (st : Tracker) : nat :=
  List.length (filter is_applying (trace st)).

Definition is_track (e : Event) : bool :=
  match e with Track _ => true | _ => false end.

(** How many snapshots the slot holds: none or one. *)
Definition pending (st : Tracker) : nat :=
  match new_settings st with NULL => 0 | Ptr _ => 1 end.

(** The basis change in the words of the specification: out-x is minus
    camera-z, out-y is minus camera-x, out-z is camera-y. *)
Definition basis_change_spec (v : Cv.Vec3f) : Cv.Vec3f :=
  Cv.mkVec3f (- Cv.v2 v) (- Cv.v0 v) (Cv.v1 v).

Definition is_get_frame (e : Event) : bool :=
  match e with GetFrame _ => true | _ => false end.

Definition is_extract (e : Event) : bool :=
  match e with Extract _ => true | _ => false end.

Definition is_display (e : Event) : bool :=
  match e with Display _ => true | _ => false end.

(** How many of the effects so far satisfy [p]. *)
Definition count_events (p : Event -> bool) (st : Tracker) : nat :=
  List.length (filter p (trace st)).


(** What [apply_inner] makes of the extractor, the model and the offset
    when it applies the settings [s]. *)
Definition extractor_of (s : settings) : PointExtractor :=
  mkPointExtractor (threshold s) (threshold_secondary s)
    (min_point_size s) (max_point_size s).

Definition model_of (s : settings) : PointModel :=
  PointModel_make (Cv.mkVec3f (m01_x s) (m01_y s) (m01_z s))
    (Cv.mkVec3f (m02_x s) (m02_y s) (m02_z s)).

Definition offset_of (s : settings) : Cv.Vec3f :=
  Cv.mkVec3f (t_MH_x s) (t_MH_y s) (t_MH_z s).

Definition camera_of (s : settings) (c : Camera) : Camera :=
  set_fps (cam_fps s)
    (set_res (cam_res_x s) (cam_res_y s)
       (set_device_index (cam_index s) c)).



End Views.

(* ------------------------------------------------------------------ *)
(** ** The pose cell shared by [run] and [data] *)

Module Sync.
Import Aff.

Inductive Thread : Set := Worker | Reader.

Definition Thread_eqb (a b : Thread) : bool :=
  match a, b with
  | Worker, Worker | Reader, Reader => true
  | _, _ => false
  end.

(** The steps of the two threads that touch the mutex or the pose. *)
Inductive Action : Type :=
| Lock
| Unlock
| StoreR (M : Cv.Matx33f)
| StoreT (v : Cv.Vec3f)
| LoadR
| LoadT
| Publish.

(** The [if] block of [run] on a frame with [N_POINTS] detections:
    [QMutexLocker lock(&mutex)], then [track] stores the rotation and the
    translation of the new pose, then the block ends. *)
Definition run_section (X : Affine) : list Action :=
  [Lock; StoreR (R_ X); StoreT (t_ X); Unlock].

(** [data]: [X_CM = point_tracker.pose()] copies the rotation and the
    translation; then [QMutexLocker lock(&mutex)], the stores to the
    output array, and the end of the function. *)
Definition data_section : list Action :=
  [LoadR; LoadT; Lock; Publish; Unlock].

Record Config := mkConfig {
  shared : Affine;            (* the pose inside [point_tracker] *)
  owner : option Thread;      (* who holds the mutex *)
  depth : nat;                (* how many times: the mutex is recursive *)
  worker_pc : list Action;
  reader_pc : list Action;
  local : Affine;             (* [X_CM] of [data] *)
  published : option Affine   (* the pose the outputs were computed from *)
}.

Definition init (X_old X_new : Affine) : Config :=
  mkConfig X_old None 0 (run_section X_new) data_section identity None.

Definition pc_of (th : Thread) (c : Config) : list Action :=
  match th with Worker => worker_pc c | Reader => reader_pc c end.

Definition advance (th : Thread) (c : Config) : Config :=
  match th with
  | Worker => mkConfig (shared c) (owner c) (depth c) (tl (worker_pc c))
                (reader_pc c) (local c) (published c)
  | Reader => mkConfig (shared c) (owner c) (depth c) (worker_pc c)
                (tl (reader_pc c)) (local c) (published c)
  end.

Definition holds (th : Thread) (c : Config) : bool :=
  match owner c with
  | Some o => Thread_eqb o th
  | None => false
  end.

(** One step of thread [th]; [None] when it has finished or must wait. *)
Definition step (th : Thread) (c : Config) : option Config :=
  match pc_of th c with
  | [] => None
  | a :: _ =>
      let c' := advance th c in
      match a with
      | Lock =>
          match owner c with
          | None => Some (mkConfig (shared c') (Some th) 1 (worker_pc c')
                            (reader_pc c') (local c') (published c'))
          | Some o =>
              if Thread_eqb o th
              then Some (mkConfig (shared c') (Some th) (S (depth c))
                           (worker_pc c') (reader_pc c') (local c') (published c'))
              else None
          end
      | Unlock =>
          if holds th c then
            match depth c with
            | S (S n) => Some (mkConfig (shared c') (Some th) (S n)
                                 (worker_pc c') (reader_pc c') (local c') (published c'))
            | _ => Some (mkConfig (shared c') None 0
                           (worker_pc c') (reader_pc c') (local c') (published c'))
            end
          else None
      | StoreR M =>
          Some (mkConfig (mkAffine M (t_ (shared c))) (owner c') (depth c')
                  (worker_pc c') (reader_pc c') (local c') (published c'))
      | StoreT v =>
          Some (mkConfig (mkAffine (R_ (shared c)) v) (owner c') (depth c')
                  (worker_pc c') (reader_pc c') (local c') (published c'))
      | LoadR =>
          Some (mkConfig (shared c') (owner c') (depth c') (worker_pc c')
                  (reader_pc c') (mkAffine (R_ (shared c)) (t_ (local c)))
                  (published c'))
      | LoadT =>
          Some (mkConfig (shared c') (owner c') (depth c') (worker_pc c')
                  (reader_pc c') (mkAffine (R_ (local c)) (t_ (shared c)))
                  (published c'))
      | Publish =>
          Some (mkConfig (shared c') (owner c') (depth c') (worker_pc c')
                  (reader_pc c') (local c') (Some (local c)))
      end
  end.

(** The threads take their steps in the order of the schedule. *)
Fixpoint exec (sched : list Thread) (c : Config) : option Config :=
  match sched with
  | [] => Some c
  | th :: rest =>
      match step th c with
      | Some c' => exec rest c'
      | None => None
      end
  end.

(** The worker is inside its locked block, between its two stores, when
    [data] copies the pose. *)
Definition torn_schedule : list Thread :=
  [Worker; Worker; Reader; Reader; Worker; Worker; Reader; Reader; Reader].

End Sync.

(* ------------------------------------------------------------------ *)
(** ** A small concrete world

    A frame is the list of the bright points in it, the camera is the
    queue of the frames to come, the extractor returns the points of the
    frame, and the point tracker moves its pose one unit along x for
    every detection set it is given. *)

Module Demo.
Import Cv Aff.

Definition base_settings : settings :=
  mkSettings 0 640 480 30 128 128 2 50 0 40 (-30) 0 40 30 0 0 0.

(** As [base_settings], with the head-to-model offset (10, 0, 0). *)
Definition moved_settings : settings :=
  mkSettings 0 640 480 30 128 128 2 50 0 40 (-30) 0 40 30 10 0 0.

Definition collab : Collaborators := {|
  Frame := list Vec2f;
  Camera := list (list Vec2f);
  PointModel := Vec3f * Vec3f;
  PointTracker := Affine;
  PointModel_make := fun a b => (a, b);
  set_device_index := fun _ c => c;
  set_res := fun _ _ c => c;
  set_fps := fun _ c => c;
  camera_start := fun c => c;
  get_frame := fun _ c =>
    match c with
    | [] => (false, [], [])
    | f :: rest => (true, f, rest)
    end;
  frame_empty := fun _ => false;
  extract_points := fun _ f => (f, f);
  draw_cross := fun f _ => f;
  track := fun _ _ X => mkAffine (R_ X) (addv (t_ X) (mkVec3f 1 0 0));
  pose := fun X => X;
  settings_at := fun a =>
    match a with
    | O => base_settings
    | S _ => moved_settings
    end;
  addr_s := 0
|}.

Definition flag_bits : CommandBits := {| abort_bit := 1; pause_bit := 2 |}.

#[local] Existing Instance collab.
#[local] Existing Instance flag_bits.

Definition no_widgets : Gui := mkGui (fun _ => NULL) 1.

(** A tracker as its constructor leaves it. *)
Definition fresh : Tracker :=
  Tracker_ctor (zero3, zero3) [] (mkPointExtractor 0 0 0 0) identity no_widgets.

(** A started tracker whose camera will deliver [frames]; the parent
    frame is at address 0, the widget at 1, the layout at 2. *)
Definition started_with (frames : list (list Vec2f)) (slot : ptr) (cmds : Z)
  : Tracker :=
  mkTracker cmds (Ptr 1) (Ptr 0) slot
    (mkVec3f 0 40 (-30), mkVec3f 0 40 30) frames
    (mkPointExtractor 128 128 2 50) identity zero3
    (mkGui (fun a => if Nat.eqb a 0 then Ptr 2 else NULL) 3) true [].

Definition pt (x y : R) : Vec2f := mkVec2f x y.

(** A frame with two bright points, and one with three. *)
Definition two_points : list Vec2f := [pt 0 0; pt 1 0].
Definition three_points : list Vec2f := [pt 0 0; pt 1 0; pt 0 1].

Definition zeros : THeadPoseData := fun _ => 0%R.

Definition quiet : Tick := mkTick [] [] 16000000.

(** [fresh] once [start_tracker] has returned. *)
Definition after_start : Tracker :=
  match start_tracker (Ptr 0) fresh with
  | Done st => st
  | NullDeref => fresh
  end.

(** A started tracker with identity pose and zero offset, about to get a
    frame with two bright points, while [moved_settings] wait in the
    slot. *)
Definition with_pending : Tracker := started_with [two_points] (Ptr 1) 0.

(** [with_pending] after one pass of the loop. *)
Definition after_pass : Tracker :=
  match loop_body 0 with_pending with
  | Done st => st
  | NullDeref => with_pending
  end.

(** A pose a quarter turn away from the identity, ten units along x. *)
Definition turned : Affine := mkAffine R_EG (mkVec3f 10 0 0).

(** A constructed, never started tracker whose camera will deliver
    [frames]. *)
Definition unstarted_with (frames : list (list Vec2f)) : Tracker :=
  Tracker_ctor (zero3, zero3) frames (mkPointExtractor 0 0 0 0) identity
    no_widgets.

(** A started tracker whose camera will deliver a frame with three
    bright points and then one with two. *)
Definition busy : Tracker := started_with [three_points; two_points] NULL 0.

(** [busy] after two ticks without owner calls. *)
Definition after_busy : RunState :=
  match run [quiet; quiet] busy with
  | Done r => r
  | NullDeref => Looping busy
  end.



(** A tracker whose point tracker holds the rotation [M]. *)
Definition looking (M : Matx33f) : Tracker :=
  mkTracker 0 (Ptr 1) (Ptr 0) NULL
    (mkVec3f 0 40 (-30), mkVec3f 0 40 30) []
    (mkPointExtractor 128 128 2 50) (mkAffine M (mkVec3f 100 (-50) 700))
    (mkVec3f 0 0 80)
    (mkGui (fun a => if Nat.eqb a 0 then Ptr 2 else NULL) 3) true [].

End Demo.

(* ------------------------------------------------------------------ *)
(** * Properties *)

(** ** Small matrices and angles *)

Module CvFacts.
Import Cv.
Local Open Scope R_scope.

Lemma dot3_unfold (a b : nat -> R) :
  dot3 a b = 0 + a 0%nat * b 0%nat + a 1%nat * b 1%nat + a 2%nat * b 2%nat.
Proof. reflexivity. Qed.

Lemma Matx33f_ext (A B : Matx33f) :
  (forall i j, (i < 3)%nat -> (j < 3)%nat -> at_ A i j = at_ B i j) -> A = B.
Proof.
  intros H. destruct A, B.
  pose proof (H 0%nat 0%nat) as H00. pose proof (H 0%nat 1%nat) as H01.
  pose proof (H 0%nat 2%nat) as H02. pose proof (H 1%nat 0%nat) as H10.
  pose proof (H 1%nat 1%nat) as H11. pose proof (H 1%nat 2%nat) as H12.
  pose proof (H 2%nat 0%nat) as H20. pose proof (H 2%nat 1%nat) as H21.
  pose proof (H 2%nat 2%nat) as H22. simpl in *.
  f_equal; auto with arith.
Qed.

Lemma mul_eye_r (A : Matx33f) : mul A eye = A.
Proof.
  destruct A. unfold mul, eye, build. rewrite !dot3_unfold. simpl.
  f_equal; ring.
Qed.

Lemma mul_eye_l (A : Matx33f) : mul eye A = A.
Proof.
  destruct A. unfold mul, eye, build. rewrite !dot3_unfold. simpl.
  f_equal; ring.
Qed.

Lemma mulv_eye (v : Vec3f) : mulv eye v = v.
Proof.
  destruct v. unfold mulv, eye, build, build3. rewrite !dot3_unfold. simpl.
  f_equal; ring.
Qed.

Lemma addv_zero_r (v : Vec3f) : addv v zero3 = v.
Proof. destruct v. unfold addv, build3, zero3. simpl. f_equal; ring. Qed.

Lemma addv_zero_l (v : Vec3f) : addv zero3 v = v.
Proof. destruct v. unfold addv, build3, zero3. simpl. f_equal; ring. Qed.

Lemma atan2_pos (y x : R) : 0 < x -> atan2 y x = atan (y / x).
Proof.
  intros Hx. unfold atan2. destruct (Rlt_dec 0 x) as [_ | n]; [reflexivity | contradiction].
Qed.

Lemma atan2_0_1 : atan2 0 1 = 0.
Proof.
  rewrite atan2_pos by lra.
  replace (0 / 1) with 0 by field. apply atan_0.
Qed.

End CvFacts.

(** ** The pose accessor *)

Section PoseFacts.

Context {C : Collaborators} {B : CommandBits}.
Local Open Scope R_scope.

Lemma R_EG_is_basis_change (v : Cv.Vec3f) :
  Cv.mulv R_EG v = basis_change_spec v.
Proof.
  destruct v. unfold Cv.mulv, R_EG, basis_change_spec, Cv.build3.
  rewrite !CvFacts.dot3_unfold. simpl. f_equal; ring.
Qed.

(** The entries of the conjugated rotation that [data] looks at, in
    terms of the rotation it starts from. *)
Lemma conjugate_entries (M : Cv.Matx33f) :
  let M' := Cv.mul (Cv.mul R_EG M) (Cv.transpose R_EG) in
  Cv.at_ M' 0 0 = Cv.m22 M /\ Cv.at_ M' 1 0 = Cv.m02 M
  /\ Cv.at_ M' 2 0 = - Cv.m12 M /\ Cv.at_ M' 2 1 = - Cv.m10 M
  /\ Cv.at_ M' 2 2 = Cv.m11 M.
Proof.
  destruct M. unfold Cv.mul, Cv.transpose, R_EG, Cv.build.
  cbn [Cv.at_ Cv.m00 Cv.m01 Cv.m02 Cv.m10 Cv.m11 Cv.m12 Cv.m20 Cv.m21 Cv.m22].
  rewrite !CvFacts.dot3_unfold.
  cbn [Cv.at_ Cv.m00 Cv.m01 Cv.m02 Cv.m10 Cv.m11 Cv.m12 Cv.m20 Cv.m21 Cv.m22].
  repeat split; ring.
Qed.

Lemma data_unfold (st : Tracker) (d : THeadPoseData) :
  let X_GH := Aff.compose (pose (point_tracker st))
                (Aff.mkAffine Cv.eye (t_MH st)) in
  let M' := Cv.mul (Cv.mul R_EG (Aff.R_ X_GH)) (Cv.transpose R_EG) in
  data st d Yaw = rad2deg * fst (fst (euler_angles M'))
  /\ data st d Pitch = - rad2deg * snd (fst (euler_angles M'))
  /\ data st d Roll = rad2deg * snd (euler_angles M')
  /\ data st d TX = Cv.nth3 (Aff.t_ X_GH) 0 / 10
  /\ data st d TY = Cv.nth3 (Aff.t_ X_GH) 1 / 10
  /\ data st d TZ = Cv.nth3 (Aff.t_ X_GH) 2 / 10.
Proof.
  intros X_GH M'. unfold data. fold X_GH. fold M'.
  destruct (euler_angles M') as [[alpha beta] gamma].
  unfold store. simpl. repeat split; reflexivity.
Qed.

(** C1. [data] composes the stored pose with the head-to-model offset,
    conjugates the rotation with [R_EG], whose action on a vector is the
    basis change out-x = -camera-z, out-y = -camera-x, out-z = camera-y,
    and stores yaw, pitch and roll as the three arctangents of the
    conjugated rotation, in degrees, the pitch with its sign flipped. *)
Theorem data_angles (st : Tracker) (d : THeadPoseData) :
  let X_GH := Aff.compose (pose (point_tracker st))
                (Aff.mkAffine Cv.eye (t_MH st)) in
  let M' := Cv.mul (Cv.mul R_EG (Aff.R_ X_GH)) (Cv.transpose R_EG) in
  (forall v, Cv.mulv R_EG v = basis_change_spec v)
  /\ data st d Yaw = rad2deg * Cv.atan2 (Cv.at_ M' 1 0) (Cv.at_ M' 0 0)
  /\ data st d Pitch
     = rad2deg * - Cv.atan2 (- Cv.at_ M' 2 0)
                    (sqrt (Cv.at_ M' 2 1 * Cv.at_ M' 2 1
                           + Cv.at_ M' 2 2 * Cv.at_ M' 2 2))
  /\ data st d Roll = rad2deg * Cv.atan2 (Cv.at_ M' 2 1) (Cv.at_ M' 2 2).
Proof.
  intros X_GH M'.
  destruct (data_unfold st d) as (Hy & Hp & Hr & _).
  fold X_GH in Hy, Hp, Hr. fold M' in Hy, Hp, Hr.
  split; [exact R_EG_is_basis_change|].
  split; [exact Hy|]. split; [|exact Hr].
  rewrite Hp. unfold euler_angles. cbn [fst snd]. ring.
Qed.

(** C7. The three translation outputs of [data] are the components of
    the translation of the composed pose, divided by 10. *)
Theorem data_translation (st : Tracker) (d : THeadPoseData) :
  let t := Aff.t_ (Aff.compose (pose (point_tracker st))
                     (Aff.mkAffine Cv.eye (t_MH st))) in
  data st d TX = Cv.v0 t / 10
  /\ data st d TY = Cv.v1 t / 10
  /\ data st d TZ = Cv.v2 t / 10.
Proof.
  intros t. destruct (data_unfold st d) as (_ & _ & _ & Hx & Hy & Hz).
  repeat split; assumption.
Qed.

Lemma compose_identity :
  Aff.compose Aff.identity (Aff.mkAffine Cv.eye Cv.zero3) = Aff.identity.
Proof.
  unfold Aff.compose, Aff.identity. cbn [Aff.R_ Aff.t_].
  rewrite CvFacts.mul_eye_l, CvFacts.mulv_eye, CvFacts.addv_zero_r.
  reflexivity.
Qed.

(** C8. Whenever the conjugated rotation has [M'(2,1) = 0], [M'(2,2) = 1],
    [M'(2,0) = 0], [M'(1,0) = 0] and [M'(0,0) = 1], [data] stores 0 degrees
    for yaw, pitch and roll; and with an identity pose and a zero
    head-to-model offset, whatever geometry vectors the point model was
    just built from, all six outputs are 0. *)
Theorem identity_pose_reads_zero :
  (forall (st : Tracker) (d : THeadPoseData),
      let X_GH := Aff.compose (pose (point_tracker st))
                    (Aff.mkAffine Cv.eye (t_MH st)) in
      let M' := Cv.mul (Cv.mul R_EG (Aff.R_ X_GH)) (Cv.transpose R_EG) in
      Cv.at_ M' 2 1 = 0 -> Cv.at_ M' 2 2 = 1 -> Cv.at_ M' 2 0 = 0 ->
      Cv.at_ M' 1 0 = 0 -> Cv.at_ M' 0 0 = 1 ->
      data st d Yaw = 0 /\ data st d Pitch = 0 /\ data st d Roll = 0)
  /\ (forall (M01 M02 : Cv.Vec3f) (st : Tracker) (d : THeadPoseData) (ax : Axis),
        pose (point_tracker st) = Aff.identity ->
        t_MH st = Cv.zero3 ->
        data (set_model (PointModel_make M01 M02) st) d ax = 0).
Proof.
  assert (Hgen : forall (st : Tracker) (d : THeadPoseData),
      let X_GH := Aff.compose (pose (point_tracker st))
                    (Aff.mkAffine Cv.eye (t_MH st)) in
      let M' := Cv.mul (Cv.mul R_EG (Aff.R_ X_GH)) (Cv.transpose R_EG) in
      Cv.at_ M' 2 1 = 0 -> Cv.at_ M' 2 2 = 1 -> Cv.at_ M' 2 0 = 0 ->
      Cv.at_ M' 1 0 = 0 -> Cv.at_ M' 0 0 = 1 ->
      data st d Yaw = 0 /\ data st d Pitch = 0 /\ data st d Roll = 0).
  { intros st d X_GH M' H21 H22 H20 H10 H00.
    destruct (data_unfold st d) as (Hy & Hp & Hr & _).
    fold X_GH in Hy, Hp, Hr. fold M' in Hy, Hp, Hr.
    rewrite Hy, Hp, Hr. unfold euler_angles. cbn [fst snd].
    rewrite H21, H22, H20, H10, H00.
    replace (0 * 0 + 1 * 1) with 1 by ring.
    rewrite sqrt_1, Ropp_0, CvFacts.atan2_0_1.
    repeat split; ring. }
  split; [exact Hgen|].
  intros M01 M02 st d ax Hpose Ht.
  set (st' := set_model (PointModel_make M01 M02) st).
  assert (HX : Aff.compose (pose (point_tracker st'))
                 (Aff.mkAffine Cv.eye (t_MH st')) = Aff.identity).
  { unfold st'. cbn [set_model point_tracker t_MH].
    rewrite Hpose, Ht. apply compose_identity. }
  destruct (conjugate_entries Cv.eye) as (E00 & E10 & E20 & E21 & E22).
  cbv zeta in E00, E10, E20, E21, E22.
  destruct (Hgen st' d) as (Hy & Hp & Hr).
  - rewrite HX. cbn [Aff.identity Aff.R_]. rewrite E21. simpl. ring.
  - rewrite HX. cbn [Aff.identity Aff.R_]. rewrite E22. reflexivity.
  - rewrite HX. cbn [Aff.identity Aff.R_]. rewrite E20. simpl. ring.
  - rewrite HX. cbn [Aff.identity Aff.R_]. rewrite E10. reflexivity.
  - rewrite HX. cbn [Aff.identity Aff.R_]. rewrite E00. reflexivity.
  - destruct (data_unfold st' d) as (_ & _ & _ & Hx & Hy' & Hz).
    rewrite HX in Hx, Hy', Hz. cbn [Aff.identity Aff.t_ Cv.zero3 Cv.nth3 Cv.v0 Cv.v1 Cv.v2] in Hx, Hy', Hz.
    destruct ax; try assumption; (rewrite Hx || rewrite Hy' || rewrite Hz); field.
Qed.

End PoseFacts.

(** ** Settings hot-apply *)

Section SettingsFacts.

Context {C : Collaborators} {B : CommandBits}.

Lemma apply_inner_empty (st : Tracker) :
  new_settings st = NULL -> apply_inner st = st.
Proof.
  intros H. unfold apply_inner. rewrite H.
  destruct st; cbn in *. subst. reflexivity.
Qed.

Lemma apply_inner_full (a : nat) (st : Tracker) :
  new_settings st = Ptr a ->
  apply_inner st = apply_settings (settings_at a) (set_new_settings NULL st).
Proof. intros H. unfold apply_inner. rewrite H. reflexivity. Qed.

Lemma new_settings_apply_settings (s : settings) (st : Tracker) :
  new_settings (apply_settings s st) = new_settings st.
Proof. reflexivity. Qed.

Lemma new_settings_apply_inner (st : Tracker) :
  new_settings (apply_inner st) = NULL.
Proof. unfold apply_inner. destruct (new_settings st); reflexivity. Qed.

(** Requests only touch the slot: after any number of them, the state is
    the one before with the last address in the slot. *)
Lemma requests_overwrite (reqs : list nat) (a : nat) (st : Tracker) :
  fold_left (fun s r => apply r s) (reqs ++ [a]) st = apply a st.
Proof.
  rewrite fold_left_app. cbn [fold_left].
  generalize dependent st.
  induction reqs as [|r reqs IH]; intros st; cbn [fold_left].
  - reflexivity.
  - rewrite IH. reflexivity.
Qed.

Lemma applications_apply (a : nat) (st : Tracker) :
  applications (apply a st) = applications st.
Proof. reflexivity. Qed.

Lemma applications_apply_inner (st : Tracker) :
  applications (apply_inner st) = applications st + pending st.
Proof.
  unfold apply_inner, pending. destruct (new_settings st) as [|a].
  - unfold applications. cbn. lia.
  - unfold applications. cbn. lia.
Qed.

(** Over any interleaving of requests and consumptions, settings are
    applied at most once per snapshot put in the slot. *)
Lemma applications_bounded (ops : list SlotOp) (st : Tracker) :
  applications (fold_left slot_op ops st) + pending (fold_left slot_op ops st)
  <= applications st + pending st + List.length (filter is_request ops).
Proof.
  generalize dependent st.
  induction ops as [|op ops IH]; intros st; cbn [fold_left filter].
  - cbn. lia.
  - specialize (IH (slot_op st op)). destruct op as [a|]; cbn [slot_op is_request] in *.
    + rewrite applications_apply in IH.
      assert (pending (apply a st) = 1) by reflexivity.
      cbn [List.length]. unfold pending in *. destruct (new_settings st); lia.
    + rewrite applications_apply_inner in IH.
      assert (Hp : pending (apply_inner st) = 0)
        by (unfold pending; rewrite new_settings_apply_inner; reflexivity).
      lia.
Qed.

(** C3. After any sequence of requests, the next [apply_inner] applies
    the settings of the last request and nothing else: the result is the
    one it would have were the last request the only one.  It leaves the
    slot empty, so a further [apply_inner] changes nothing; and over any
    interleaving of requests and consumptions settings are applied at
    most once per request. *)
Theorem last_request_wins (reqs : list nat) (a : nat) (st : Tracker) :
  let st' := fold_left (fun s r => apply r s) (reqs ++ [a]) st in
  apply_inner st' = apply_settings (settings_at a) (set_new_settings NULL st)
  /\ apply_inner st' = apply_inner (apply a st)
  /\ new_settings (apply_inner st') = NULL
  /\ apply_inner (apply_inner st') = apply_inner st'
  /\ applications (apply_inner st') = S (applications st)
  /\ (forall ops : list SlotOp,
        applications (fold_left slot_op ops st)
        <= applications st + pending st + List.length (filter is_request ops)).
Proof.
  intros st'. unfold st'. rewrite requests_overwrite.
  split; [|split; [|split; [|split; [|split]]]].
  - rewrite (@apply_inner_full a) by reflexivity.
    destruct st; reflexivity.
  - reflexivity.
  - apply new_settings_apply_inner.
  - apply apply_inner_empty, new_settings_apply_inner.
  - rewrite applications_apply_inner, applications_apply. cbn. lia.
  - intros ops. pose proof (applications_bounded ops st). lia.
Qed.

(** C6. [apply_inner] on an empty slot returns the state it was given:
    the point model, the camera, the extractor's thresholds and size
    bounds, the head-to-model offset and everything else are untouched,
    and nothing is logged. *)
Theorem apply_inner_noop (st : Tracker) :
  new_settings st = NULL ->
  apply_inner st = st
  /\ model (apply_inner st) = model st
  /\ camera (apply_inner st) = camera st
  /\ point_extractor (apply_inner st) = point_extractor st
  /\ t_MH (apply_inner st) = t_MH st
  /\ trace (apply_inner st) = trace st.
Proof.
  intros H. rewrite (apply_inner_empty st H).
  split; [|split; [|split; [|split; [|split]]]]; reflexivity.
Qed.

End SettingsFacts.

(** ** Command flags *)

Module FlagFacts.
Local Open Scope Z_scope.

Lemma lor_set_same (c p : Z) : Z.lor (Z.lor c p) p = Z.lor c p.
Proof. rewrite <- Z.lor_assoc, Z.lor_diag. reflexivity. Qed.

Lemma lor_reset_same (c p : Z) : Z.lor (Z.land c (Z.lnot p)) p = Z.lor c p.
Proof.
  apply Z.bits_inj'. intros n Hn.
  rewrite !Z.lor_spec, Z.land_spec, Z.lnot_spec by assumption.
  destruct (Z.testbit c n), (Z.testbit p n); reflexivity.
Qed.

Lemma lor_set_congr (c1 c2 x p : Z) :
  Z.lor c1 p = Z.lor c2 p -> Z.lor (Z.lor c1 x) p = Z.lor (Z.lor c2 x) p.
Proof.
  intros H.
  rewrite <- !Z.lor_assoc, !(Z.lor_comm x p), !Z.lor_assoc, H. reflexivity.
Qed.

Lemma lor_reset_congr (c1 c2 x p : Z) :
  Z.lor c1 p = Z.lor c2 p ->
  Z.lor (Z.land c1 (Z.lnot x)) p = Z.lor (Z.land c2 (Z.lnot x)) p.
Proof.
  intros H. rewrite !Z.lor_land_distr_l, H. reflexivity.
Qed.

Lemma land_ignores_disjoint (c a p : Z) :
  Z.land a p = 0 -> Z.land (Z.lor c p) a = Z.land c a.
Proof.
  intros H. rewrite Z.land_lor_distr_l, (Z.land_comm p a), H, Z.lor_0_r.
  reflexivity.
Qed.

Lemma land_congr (c1 c2 a p : Z) :
  Z.land a p = 0 -> Z.lor c1 p = Z.lor c2 p -> Z.land c1 a = Z.land c2 a.
Proof.
  intros Hd H.
  rewrite <- (land_ignores_disjoint c1 _ _ Hd), <- (land_ignores_disjoint c2 _ _ Hd), H.
  reflexivity.
Qed.

Lemma land_set_self (c a : Z) : a <> 0 -> Z.land (Z.lor c a) a <> 0.
Proof.
  intros Ha H. rewrite Z.land_lor_distr_l, Z.land_diag in H.
  apply Z.lor_eq_0_iff in H. destruct H as [_ H]. contradiction.
Qed.

Lemma land_set_keeps (c x a : Z) : Z.land c a <> 0 -> Z.land (Z.lor c x) a <> 0.
Proof.
  intros Hc H. rewrite Z.land_lor_distr_l in H.
  apply Z.lor_eq_0_iff in H. destruct H as [H _]. contradiction.
Qed.

Lemma land_reset_disjoint (c a p : Z) :
  Z.land a p = 0 -> Z.land (Z.land c (Z.lnot p)) a = Z.land c a.
Proof.
  intros Hd. apply Z.bits_inj'. intros n Hn.
  assert (Hb : Z.testbit (Z.land a p) n = false) by (rewrite Hd; apply Z.bits_0).
  rewrite Z.land_spec in Hb.
  rewrite !Z.land_spec, Z.lnot_spec by assumption.
  destruct (Z.testbit c n), (Z.testbit a n), (Z.testbit p n);
    cbn in *; congruence.
Qed.

End FlagFacts.

(** ** The worker loop *)

Section LoopFacts.

Context {C : Collaborators} {B : CommandBits}.

(** *** What one pass leaves alone *)

Lemma apply_inner_set_commands (c : Z) (st : Tracker) :
  apply_inner (set_commands c st) = set_commands c (apply_inner st).
Proof. unfold apply_inner. cbn. destruct (new_settings st); reflexivity. Qed.

Lemma loop_body_set_commands (dt : R) (c : Z) (st : Tracker) :
  loop_body dt (set_commands c st)
  = (st' <- loop_body dt st ;; Done (set_commands c st')).
Proof.
  unfold loop_body. rewrite apply_inner_set_commands.
  generalize (apply_inner st). intros s. cbn [set_commands camera].
  destruct (get_frame dt (camera s)) as [[new_frame frame] cam].
  destruct (new_frame && negb (frame_empty frame)); [|reflexivity].
  cbn [emit set_camera set_commands point_extractor].
  destruct (extract_points (point_extractor s) frame) as [points marked].
  destruct (Nat.eqb (List.length points) N_POINTS); cbn;
    destruct (video_widget s); reflexivity.
Qed.

Lemma set_commands_same (st : Tracker) : set_commands (commands st) st = st.
Proof. destruct st; reflexivity. Qed.

Lemma loop_body_commands (dt : R) (st st' : Tracker) :
  loop_body dt st = Done st' -> commands st' = commands st.
Proof.
  intros H. rewrite <- (set_commands_same st) in H.
  rewrite loop_body_set_commands in H.
  destruct (loop_body dt st) as [s|]; cbn in H; [|discriminate].
  injection H as <-. reflexivity.
Qed.

Lemma is_track_apply_inner (st : Tracker) :
  filter is_track (trace (apply_inner st)) = filter is_track (trace st).
Proof. unfold apply_inner. destruct (new_settings st); reflexivity. Qed.

Lemma point_tracker_apply_inner (st : Tracker) :
  point_tracker (apply_inner st) = point_tracker st.
Proof. unfold apply_inner. destruct (new_settings st); reflexivity. Qed.

Lemma video_widget_apply_inner (st : Tracker) :
  video_widget (apply_inner st) = video_widget st.
Proof. unfold apply_inner. destruct (new_settings st); reflexivity. Qed.

Lemma video_frame_apply_inner (st : Tracker) :
  video_frame (apply_inner st) = video_frame st.
Proof. unfold apply_inner. destruct (new_settings st); reflexivity. Qed.

Lemma data_ext (st1 st2 : Tracker) (d : THeadPoseData) :
  point_tracker st1 = point_tracker st2 -> t_MH st1 = t_MH st2 ->
  data st1 d = data st2 d.
Proof. intros Hp Ht. unfold data. rewrite Hp, Ht. reflexivity. Qed.

(** *** A pass with too few or too many detections *)

(** C4, as the code has it.  In a pass that gets a non-empty frame whose
    detection set does not have [N_POINTS] points, on a tracker that has
    its video widget, [track] is not called and the pose inside the point
    tracker stays as it was, and the marked frame is handed to the
    widget.  What [data] returns stays the same when the settings
    applied at the start of the pass leave the head-to-model offset as
    it was, and so when no settings were pending.  And a pass changes
    the point tracker only if it got a non-empty frame with exactly
    [N_POINTS] detections. *)
Theorem short_detection_keeps_pose :
  (forall (dt : R) (st : Tracker) (frame : Frame) (cam : Camera)
          (points : list Cv.Vec2f) (marked : Frame) (w : nat),
      get_frame dt (camera (apply_inner st)) = (true, frame, cam) ->
      frame_empty frame = false ->
      extract_points (point_extractor (apply_inner st)) frame = (points, marked) ->
      List.length points <> N_POINTS ->
      video_widget st = Ptr w ->
      exists st',
        loop_body dt st = Done st'
        /\ point_tracker st' = point_tracker st
        /\ trace st' = Display (fold_left draw_cross points marked)
                         :: Extract frame :: GetFrame dt
                         :: trace (apply_inner st)
        /\ filter is_track (trace st') = filter is_track (trace st)
        /\ (t_MH (apply_inner st) = t_MH st ->
            forall d ax, data st' d ax = data st d ax)
        /\ (new_settings st = NULL ->
            forall d ax, data st' d ax = data st d ax))
  /\ (forall (dt : R) (st st' : Tracker),
        loop_body dt st = Done st' ->
        point_tracker st' <> point_tracker st ->
        exists frame cam points marked,
          get_frame dt (camera (apply_inner st)) = (true, frame, cam)
          /\ frame_empty frame = false
          /\ extract_points (point_extractor (apply_inner st)) frame
             = (points, marked)
          /\ List.length points = N_POINTS).
Proof.
  split.
  - intros dt st frame cam points marked w Hget Hne Hext Hlen Hw.
    assert (Hstep : loop_body dt st
                    = Done (emit (Display (fold_left draw_cross points marked))
                              (emit (Extract frame)
                                 (emit (GetFrame dt)
                                    (set_camera cam (apply_inner st)))))).
    { unfold loop_body. rewrite Hget, Hne. cbn [andb negb].
      cbn [emit set_camera point_extractor]. rewrite Hext.
      apply Nat.eqb_neq in Hlen. rewrite Hlen.
      cbn [video_widget emit set_camera].
      rewrite video_widget_apply_inner, Hw. reflexivity. }
    eexists. split; [exact Hstep|].
    assert (Hpt : point_tracker
                    (emit (Display (fold_left draw_cross points marked))
                       (emit (Extract frame)
                          (emit (GetFrame dt)
                             (set_camera cam (apply_inner st)))))
                  = point_tracker st)
      by (cbn [emit set_camera point_tracker]; apply point_tracker_apply_inner).
    split; [exact Hpt|].
    split; [reflexivity|].
    split; [cbn; apply is_track_apply_inner|].
    assert (Hsame : t_MH (apply_inner st) = t_MH st ->
                    forall d ax,
                      data (emit (Display (fold_left draw_cross points marked))
                              (emit (Extract frame)
                                 (emit (GetFrame dt)
                                    (set_camera cam (apply_inner st))))) d ax
                      = data st d ax).
    { intros Ht d ax. rewrite (data_ext _ st d); [reflexivity|exact Hpt|exact Ht]. }
    split; [exact Hsame|].
    intros Hnull. apply Hsame. rewrite (apply_inner_empty st Hnull). reflexivity.
  - intros dt st st' Hstep Hneq.
    unfold loop_body in Hstep.
    destruct (get_frame dt (camera (apply_inner st))) as [[new_frame frame] cam].
    destruct new_frame; cbn [andb] in Hstep.
    + destruct (frame_empty frame) eqn:Hne; cbn [negb] in Hstep.
      * injection Hstep as <-. exfalso. apply Hneq. cbn.
        apply point_tracker_apply_inner.
      * cbn [emit set_camera point_extractor] in Hstep.
        destruct (extract_points (point_extractor (apply_inner st)) frame)
          as [points marked] eqn:Hext.
        destruct (Nat.eqb (List.length points) N_POINTS) eqn:Hlen.
        -- exists frame, cam, points, marked.
           apply Nat.eqb_eq in Hlen. auto.
        -- cbn [video_widget emit set_camera] in Hstep.
           destruct (video_widget (apply_inner st)); [discriminate|].
           injection Hstep as <-. exfalso. apply Hneq. cbn.
           apply point_tracker_apply_inner.
    + injection Hstep as <-. exfalso. apply Hneq. cbn.
      apply point_tracker_apply_inner.
Qed.

(** *** The flag test *)

(** The two enumerators are flags of a bit set that are set and reset
    independently of each other: [ABORT] has a bit, and shares none with
    [PAUSE]. *)
Hypothesis abort_nonzero : abort_bit <> 0%Z.
Hypothesis flags_disjoint : Z.land abort_bit pause_bit = 0%Z.

Lemma loop_test_true (st : Tracker) :
  loop_test st = true <-> Z.land (commands st) abort_bit = 0%Z.
Proof. unfold loop_test. cbn [bits]. apply Z.eqb_eq. Qed.

Lemma loop_test_false (st : Tracker) :
  loop_test st = false <-> abort_set st.
Proof. unfold loop_test, abort_set. cbn [bits]. apply Z.eqb_neq. Qed.

Lemma owner_op_keeps_abort (op : OwnerOp) (st : Tracker) :
  op <> OpReset ABORT -> abort_set st -> abort_set (owner_op st op).
Proof.
  unfold abort_set. intros Hop Hst.
  destruct op as [[|]|[|]|a]; cbn.
  - apply FlagFacts.land_set_keeps; assumption.
  - apply FlagFacts.land_set_keeps; assumption.
  - congruence.
  - rewrite FlagFacts.land_reset_disjoint; assumption.
  - assumption.
Qed.

Lemma owner_ops_keep_abort (ops : list OwnerOp) (st : Tracker) :
  ~ In (OpReset ABORT) ops -> abort_set st -> abort_set (owner_ops ops st).
Proof.
  unfold owner_ops. generalize dependent st.
  induction ops as [|op ops IH]; intros st Hno Hst; cbn [fold_left].
  - assumption.
  - apply IH.
    + intros Hin. apply Hno. right. assumption.
    + apply owner_op_keeps_abort; [|assumption].
      intros ->. apply Hno. left. reflexivity.
Qed.

(** Once the owner has called [set_command(ABORT)], and as long as it
    does not take it back, the flag is seen set. *)
Lemma owner_ops_set_abort (ops : list OwnerOp) (st : Tracker) :
  ~ In (OpReset ABORT) ops -> In (OpSet ABORT) ops ->
  abort_set (owner_ops ops st).
Proof.
  unfold owner_ops. generalize dependent st.
  induction ops as [|op ops IH]; intros st Hno Hin; cbn [fold_left].
  - destruct Hin.
  - assert (Hno' : ~ In (OpReset ABORT) ops)
      by (intros H; apply Hno; right; assumption).
    destruct Hin as [-> | Hin].
    + apply (owner_ops_keep_abort ops); [assumption|].
      unfold abort_set. cbn. apply FlagFacts.land_set_self. assumption.
    + apply IH; assumption.
Qed.

Lemma run_exit_abort_set (sched : list Tick) (st st' : Tracker) :
  run sched st = Done (Exited st') -> abort_set st'.
Proof.
  generalize dependent st.
  induction sched as [|tk rest IH]; intros st H; cbn [run] in H.
  - discriminate.
  - destruct (loop_test (owner_ops (before_test tk) st)) eqn:Htest.
    + destruct (loop_body (dt_of tk)
                  (owner_ops (after_test tk) (owner_ops (before_test tk) st)))
        as [s|]; cbn [bind] in H; [|discriminate].
      apply (IH s). assumption.
    + injection H as <-. apply loop_test_false in Htest. exact Htest.
Qed.

(** C5. At every flag test: with [ABORT] clear the body runs once more
    and the loop goes on to the next test, also when [PAUSE] is set; with
    [ABORT] set the loop is left at once.  The loop is only ever left
    with [ABORT] set.  And once the owner has set [ABORT] and does not
    reset it, the next test leaves the loop: at this test when the call
    came before it, and after the one pass under way when the call came
    during that pass. *)
Theorem abort_ends_loop :
  forall (tk : Tick) (rest : list Tick) (st : Tracker),
    let st0 := owner_ops (before_test tk) st in
    (Z.land (commands st0) abort_bit = 0%Z ->
       run (tk :: rest) st
       = (st' <- loop_body (dt_of tk) (owner_ops (after_test tk) st0) ;;
          run rest st'))
    /\ (Z.land (commands st0) abort_bit = 0%Z ->
        loop_test (set_command PAUSE st0) = true)
    /\ (Z.land (commands st0) abort_bit <> 0%Z ->
        run (tk :: rest) st
        = Done (Exited (emit (Debug "Tracker:: Thread stopping") st0)))
    /\ (forall st', run (tk :: rest) st = Done (Exited st') ->
                    Z.land (commands st') abort_bit <> 0%Z)
    /\ (In (OpSet ABORT) (before_test tk) ->
        ~ In (OpReset ABORT) (before_test tk) ->
        run (tk :: rest) st
        = Done (Exited (emit (Debug "Tracker:: Thread stopping") st0)))
    /\ (forall (tk2 : Tick) (rest2 : list Tick),
          rest = tk2 :: rest2 ->
          Z.land (commands st0) abort_bit = 0%Z ->
          In (OpSet ABORT) (after_test tk) ->
          ~ In (OpReset ABORT) (after_test tk) ->
          ~ In (OpReset ABORT) (before_test tk2) ->
          run (tk :: rest) st
          = (st' <- loop_body (dt_of tk) (owner_ops (after_test tk) st0) ;;
             Done (Exited (emit (Debug "Tracker:: Thread stopping")
                             (owner_ops (before_test tk2) st'))))).
Proof.
  intros tk rest st st0.
  assert (Hgo : Z.land (commands st0) abort_bit = 0%Z ->
                run (tk :: rest) st
                = (st' <- loop_body (dt_of tk) (owner_ops (after_test tk) st0) ;;
                   run rest st')).
  { intros H. cbn [run]. fold st0.
    apply loop_test_true in H. rewrite H. reflexivity. }
  assert (Hstop : abort_set st0 ->
                  run (tk :: rest) st
                  = Done (Exited (emit (Debug "Tracker:: Thread stopping") st0))).
  { intros H. cbn [run]. fold st0.
    apply loop_test_false in H. rewrite H. reflexivity. }
  split; [exact Hgo|].
  split.
  { intros H. apply loop_test_true. cbn [set_command set_commands commands bits].
    rewrite FlagFacts.land_ignores_disjoint; assumption. }
  split; [exact Hstop|].
  split; [intros st' H; exact (run_exit_abort_set _ _ _ H)|].
  split.
  { intros Hin Hno. apply Hstop. apply owner_ops_set_abort; assumption. }
  intros tk2 rest2 -> Hclear Hin Hno Hno2.
  rewrite (Hgo Hclear).
  destruct (loop_body (dt_of tk) (owner_ops (after_test tk) st0))
    as [s|] eqn:Hbody; cbn [bind]; [|reflexivity].
  cbn [run].
  assert (Hs : abort_set (owner_ops (before_test tk2) s)).
  { apply owner_ops_keep_abort; [assumption|].
    unfold abort_set. rewrite (loop_body_commands _ _ _ Hbody).
    apply owner_ops_set_abort; assumption. }
  apply loop_test_false in Hs. rewrite Hs. reflexivity.
Qed.

(** *** The [PAUSE] bit *)

Lemma pause_eq_refl (st : Tracker) : pause_eq st st.
Proof. reflexivity. Qed.

Lemma pause_eq_commands (st1 st2 : Tracker) :
  pause_eq st1 st2 ->
  Z.lor (commands st1) pause_bit = Z.lor (commands st2) pause_bit.
Proof.
  unfold pause_eq, mask_pause, set_commands. intros H.
  injection H. auto.
Qed.

Lemma pause_eq_rest (st1 st2 : Tracker) :
  pause_eq st1 st2 -> st2 = set_commands (commands st2) st1.
Proof.
  unfold pause_eq, mask_pause, set_commands. intros H.
  destruct st1, st2. cbn in *. injection H. intros. subst. reflexivity.
Qed.

Lemma pause_eq_intro (c1 c2 : Z) (st : Tracker) :
  Z.lor c1 pause_bit = Z.lor c2 pause_bit ->
  pause_eq (set_commands c1 st) (set_commands c2 st).
Proof.
  intros H. unfold pause_eq, mask_pause, set_commands. cbn. rewrite H.
  reflexivity.
Qed.

Lemma pause_eq_split (st1 st2 : Tracker) :
  pause_eq st1 st2 ->
  exists c1 c2 st,
    st1 = set_commands c1 st /\ st2 = set_commands c2 st
    /\ Z.lor c1 pause_bit = Z.lor c2 pause_bit.
Proof.
  intros H. exists (commands st1), (commands st2), st1.
  split; [symmetry; apply set_commands_same|].
  split; [apply pause_eq_rest; assumption|].
  apply pause_eq_commands; assumption.
Qed.

Lemma owner_op_set_commands (op : OwnerOp) (c : Z) (st : Tracker) :
  exists c', forall st0,
    owner_op (set_commands c st0) op
    = set_commands c' (owner_op st0 op).
Proof.
  destruct op as [k|k|a].
  - exists (Z.lor c (bits k)). reflexivity.
  - exists (Z.land c (Z.lnot (bits k))). reflexivity.
  - exists c. reflexivity.
Qed.

Lemma owner_op_sim (op : OwnerOp) (st1 st2 : Tracker) :
  pause_eq st1 st2 -> pause_eq (owner_op st1 op) (owner_op st2 op).
Proof.
  intros H. destruct (pause_eq_split _ _ H) as (c1 & c2 & st & -> & -> & Hc).
  destruct op as [k|k|a]; cbn.
  - apply (pause_eq_intro _ _ st). apply FlagFacts.lor_set_congr. assumption.
  - apply (pause_eq_intro _ _ st). apply FlagFacts.lor_reset_congr. assumption.
  - apply (pause_eq_intro _ _ (set_new_settings (Ptr a) st)). assumption.
Qed.

Lemma owner_op_pause (op : OwnerOp) (st : Tracker) :
  touches_pause op = true -> pause_eq (owner_op st op) st.
Proof.
  intros Hop. rewrite <- (set_commands_same st) at 2.
  destruct op as [[|]|[|]|a]; cbn in Hop; try discriminate; cbn.
  - apply pause_eq_intro. apply FlagFacts.lor_set_same.
  - apply pause_eq_intro. apply FlagFacts.lor_reset_same.
Qed.

Lemma pause_eq_trans (st1 st2 st3 : Tracker) :
  pause_eq st1 st2 -> pause_eq st2 st3 -> pause_eq st1 st3.
Proof. unfold pause_eq. congruence. Qed.

Lemma pause_eq_sym (st1 st2 : Tracker) : pause_eq st1 st2 -> pause_eq st2 st1.
Proof. unfold pause_eq. congruence. Qed.

Lemma owner_ops_sim (ops1 ops2 : list OwnerOp) :
  ops_sim ops1 ops2 ->
  forall st1 st2, pause_eq st1 st2 ->
                  pause_eq (owner_ops ops1 st1) (owner_ops ops2 st2).
Proof.
  unfold owner_ops.
  induction 1 as [|op l1 l2 _ IH|op l1 l2 Hop _ IH|op l1 l2 Hop _ IH];
    intros st1 st2 Heq; cbn [fold_left].
  - assumption.
  - apply IH. apply owner_op_sim. assumption.
  - apply IH. eapply pause_eq_trans; [|exact Heq].
    apply owner_op_pause. assumption.
  - apply IH. eapply pause_eq_trans; [exact Heq|].
    apply pause_eq_sym. apply owner_op_pause. assumption.
Qed.

Lemma loop_test_sim (st1 st2 : Tracker) :
  pause_eq st1 st2 -> loop_test st1 = loop_test st2.
Proof.
  intros H. unfold loop_test. cbn [bits].
  rewrite (FlagFacts.land_congr _ _ _ _ flags_disjoint (pause_eq_commands _ _ H)).
  reflexivity.
Qed.

Lemma emit_sim (e : Event) (st1 st2 : Tracker) :
  pause_eq st1 st2 -> pause_eq (emit e st1) (emit e st2).
Proof.
  intros H. destruct (pause_eq_split _ _ H) as (c1 & c2 & st & -> & -> & Hc).
  apply (pause_eq_intro _ _ (emit e st)). assumption.
Qed.

Lemma loop_body_sim (dt : R) (st1 st2 : Tracker) :
  pause_eq st1 st2 ->
  match loop_body dt st1, loop_body dt st2 with
  | Done s1, Done s2 => pause_eq s1 s2
  | NullDeref, NullDeref => True
  | _, _ => False
  end.
Proof.
  intros H. destruct (pause_eq_split _ _ H) as (c1 & c2 & st & -> & -> & Hc).
  rewrite !loop_body_set_commands.
  destruct (loop_body dt st) as [s|]; cbn [bind]; [|exact I].
  apply pause_eq_intro. assumption.
Qed.

(** C9. Two runs of the loop from states that differ at most in the
    [PAUSE] bit, under owner calls that differ at most in calls setting
    or resetting [PAUSE], end the same way, leave or stay in the loop
    alike, and reach states that again differ at most in the [PAUSE] bit:
    the same effects in the same order (settings applied, frames
    fetched, extractions, pose updates, frames displayed), the same
    pose, the same settings. *)
Theorem pause_does_not_interfere (sched1 sched2 : list Tick) :
  Forall2 tick_sim sched1 sched2 ->
  forall st1 st2 : Tracker,
    pause_eq st1 st2 ->
    run_sim (run sched1 st1) (run sched2 st2)
    /\ (forall r1 r2, run sched1 st1 = Done r1 -> run sched2 st2 = Done r2 ->
                      trace (state_of r1) = trace (state_of r2)
                      /\ point_tracker (state_of r1) = point_tracker (state_of r2)).
Proof.
  intros Hs st1 st2 Heq.
  assert (Hsim : run_sim (run sched1 st1) (run sched2 st2)).
  { generalize dependent st2. generalize dependent st1.
    induction Hs as [|tk1 tk2 l1 l2 (Hb & Ha & He) _ IH]; intros st1 st2 Heq.
    - cbn. assumption.
    - cbn [run].
      pose proof (owner_ops_sim _ _ Hb _ _ Heq) as H0.
      rewrite (loop_test_sim _ _ H0).
      destruct (loop_test (owner_ops (before_test tk2) st2)).
      + pose proof (owner_ops_sim _ _ Ha _ _ H0) as H1.
        unfold dt_of. rewrite He.
        pose proof (loop_body_sim (IZR (elapsed tk2) * / 1000000000) _ _ H1) as H2.
        destruct (loop_body _ (owner_ops (after_test tk1) _)) as [s1|];
          destruct (loop_body _ (owner_ops (after_test tk2) _)) as [s2|];
          cbn [bind]; try contradiction.
        * apply IH. assumption.
        * exact I.
      + cbn. apply emit_sim. assumption. }
  split; [exact Hsim|].
  intros r1 r2 H1 H2. rewrite H1, H2 in Hsim.
  destruct r1 as [s1|s1], r2 as [s2|s2]; cbn in Hsim; try contradiction;
    cbn [state_of]; rewrite (pause_eq_rest _ _ Hsim); split; reflexivity.
Qed.

End LoopFacts.

(** ** Construction, start and destruction *)

Section LifeFacts.

Context {C : Collaborators} {B : CommandBits}.

Lemma video_frame_owner_ops (ops : list OwnerOp) (st : Tracker) :
  video_frame (owner_ops ops st) = video_frame st.
Proof.
  unfold owner_ops. generalize dependent st.
  induction ops as [|op ops IH]; intros st; cbn [fold_left].
  - reflexivity.
  - rewrite IH. destruct op; reflexivity.
Qed.

Lemma video_frame_loop_body (dt : R) (st st' : Tracker) :
  loop_body dt st = Done st' -> video_frame st' = video_frame st.
Proof.
  unfold loop_body. intros H.
  destruct (get_frame dt (camera (apply_inner st))) as [[new_frame frame] cam].
  destruct (new_frame && negb (frame_empty frame)).
  - cbn [emit set_camera point_extractor] in H.
    destruct (extract_points (point_extractor (apply_inner st)) frame)
      as [points marked].
    destruct (Nat.eqb (List.length points) N_POINTS);
      cbn [video_widget emit set_camera set_point_tracker] in H;
      (destruct (video_widget (apply_inner st)); [discriminate|]);
      injection H as <-; cbn; apply video_frame_apply_inner.
  - injection H as <-. cbn. apply video_frame_apply_inner.
Qed.

Lemma video_frame_run (sched : list Tick) (st : Tracker) (r : RunState) :
  run sched st = Done r -> video_frame (state_of r) = video_frame st.
Proof.
  generalize dependent st.
  induction sched as [|tk rest IH]; intros st H; cbn [run] in H.
  - injection H as <-. reflexivity.
  - destruct (loop_test (owner_ops (before_test tk) st)).
    + destruct (loop_body (dt_of tk)
                  (owner_ops (after_test tk) (owner_ops (before_test tk) st)))
        as [s|] eqn:Hbody; cbn [bind] in H; [|discriminate].
      rewrite (IH s H), (video_frame_loop_body _ _ _ Hbody).
      rewrite !video_frame_owner_ops. reflexivity.
    + injection H as <-. cbn. apply video_frame_owner_ops.
Qed.

Lemma dtor_null_iff (st : Tracker) :
  Tracker_dtor st = NullDeref <-> video_frame st = NULL.
Proof.
  unfold Tracker_dtor. cbn.
  destruct (video_frame st) as [|f].
  - split; reflexivity.
  - destruct (layout_of (gui st) f); split; discriminate.
Qed.

Lemma start_tracker_video_frame (parent : ptr) (st st' : Tracker) :
  start_tracker parent st = Done st' ->
  video_frame st' = parent /\ parent <> NULL.
Proof.
  unfold start_tracker. cbn [set_video_frame video_frame].
  destruct parent as [|f]; [discriminate|].
  cbn. intros H. injection H as <-.
  split; [reflexivity|discriminate].
Qed.

(** C10. The destructor dereferences [video_frame] whatever its value.
    It ends in a null dereference exactly when [video_frame] is null;
    the constructor leaves it null and neither the owner's calls nor the
    loop change it, so a tracker that was never started cannot be
    destroyed safely.  [start_tracker], when it returns, has set
    [video_frame] to its non-null argument, and from then on, whatever
    the owner and the loop do, the destructor returns. *)
Theorem dtor_needs_start :
  (forall st, Tracker_dtor st = NullDeref <-> video_frame st = NULL)
  /\ (forall m c e p g ops,
        Tracker_dtor (owner_ops ops (Tracker_ctor m c e p g)) = NullDeref)
  /\ (forall m c e p g sched r,
        run sched (Tracker_ctor m c e p g) = Done r ->
        Tracker_dtor (state_of r) = NullDeref)
  /\ (forall parent st st' ops sched r,
        start_tracker parent st = Done st' ->
        run sched (owner_ops ops st') = Done r ->
        video_frame st' = parent /\ parent <> NULL
        /\ Tracker_dtor st' <> NullDeref
        /\ Tracker_dtor (state_of r) <> NullDeref).
Proof.
  split; [exact dtor_null_iff|].
  split.
  { intros. apply dtor_null_iff. rewrite video_frame_owner_ops. reflexivity. }
  split.
  { intros m c e p g sched r H. apply dtor_null_iff.
    rewrite (video_frame_run _ _ _ H). reflexivity. }
  intros parent st st' ops sched r Hstart Hrun.
  destruct (start_tracker_video_frame _ _ _ Hstart) as [Hvf Hnn].
  split; [exact Hvf|]. split; [exact Hnn|].
  split.
  - intros H. apply dtor_null_iff in H. congruence.
  - intros H. apply dtor_null_iff in H.
    rewrite (video_frame_run _ _ _ Hrun), video_frame_owner_ops in H.
    congruence.
Qed.

End LifeFacts.

(** ** The pose cell under the two threads *)

Module SyncFacts.
Import Aff Sync.

(** The worker takes the mutex and stores the new rotation. *)
Lemma worker_mid_store (X_old X_new : Affine) :
  exec [Worker; Worker] (init X_old X_new)
  = Some (mkConfig (mkAffine (R_ X_new) (t_ X_old)) (Some Worker) 1
            [StoreT (t_ X_new); Unlock] data_section identity None).
Proof. reflexivity. Qed.

(** The whole of [torn_schedule]. *)
Lemma torn_schedule_result (X_old X_new : Affine) :
  exec torn_schedule (init X_old X_new)
  = Some (mkConfig X_new None 0 [] []
            (mkAffine (R_ X_new) (t_ X_old))
            (Some (mkAffine (R_ X_new) (t_ X_old)))).
Proof.
  destruct X_new as [Rn tn], X_old as [Ro to].
  lazy [exec step init run_section data_section pc_of advance holds
        Thread_eqb tl hd_error shared owner depth worker_pc reader_pc
        local published R_ t_ torn_schedule identity].
  reflexivity.
Qed.

(** C2, on the code.  In [data] the copy of the pose comes before the
    mutex is taken.  With the worker inside its locked block, between the
    store of the new rotation and the store of the new translation, both
    loads of [data] go through although the worker holds the mutex, and
    the pose [data] then computes its outputs from has the new rotation
    and the old translation. *)
Theorem data_reads_before_lock (X_old X_new : Affine) :
  (exists c,
      exec [Worker; Worker] (init X_old X_new) = Some c
      /\ holds Worker c = true /\ holds Reader c = false
      /\ hd_error (reader_pc c) = Some LoadR
      /\ step Reader c <> None
      /\ shared c = mkAffine (R_ X_new) (t_ X_old))
  /\ (exists c,
        exec torn_schedule (init X_old X_new) = Some c
        /\ published c = Some (mkAffine (R_ X_new) (t_ X_old))
        /\ shared c = X_new
        /\ worker_pc c = [] /\ reader_pc c = []).
Proof.
  split.
  - eexists. split; [apply worker_mid_store|].
    repeat (split; [reflexivity|]). split; [discriminate|reflexivity].
  - eexists. split; [apply torn_schedule_result|].
    repeat (split; [reflexivity|]). reflexivity.
Qed.

End SyncFacts.

(* ------------------------------------------------------------------ *)
(** * Further properties of the tracker *)

(** ** Command flags *)

Section CommandFacts.

Context {C : Collaborators} {B : CommandBits}.

Lemma land_lor_lnot (c x : Z) :
  Z.land (Z.lor c x) (Z.lnot x) = Z.land c (Z.lnot x).
Proof.
  apply Z.bits_inj'. intros n Hn.
  rewrite !Z.land_spec, Z.lor_spec, Z.lnot_spec by assumption.
  destruct (Z.testbit c n), (Z.testbit x n); reflexivity.
Qed.

Lemma land_lnot_self (c x : Z) : Z.land (Z.land c (Z.lnot x)) x = 0%Z.
Proof.
  apply Z.bits_inj'. intros n Hn.
  rewrite !Z.land_spec, Z.lnot_spec, Z.bits_0 by assumption.
  destruct (Z.testbit c n), (Z.testbit x n); reflexivity.
Qed.

Lemma land_lor_self (c x : Z) : Z.land (Z.lor c x) x = x.
Proof.
  apply Z.bits_inj'. intros n Hn.
  rewrite Z.land_spec, Z.lor_spec.
  destruct (Z.testbit c n), (Z.testbit x n); reflexivity.
Qed.

(** [set_command] and [reset_command] of one flag undo and absorb each
    other: after a reset none of the flag's bits is set, after a set all
    of them are; a reset after a set is the reset alone, a set after a
    reset is the set alone, and each of the two is idempotent. *)
Theorem set_reset_command (c : Command) (st : Tracker) :
  Z.land (commands (reset_command c st)) (bits c) = 0%Z
  /\ Z.land (commands (set_command c st)) (bits c) = bits c
  /\ reset_command c (set_command c st) = reset_command c st
  /\ set_command c (reset_command c st) = set_command c st
  /\ set_command c (set_command c st) = set_command c st
  /\ reset_command c (reset_command c st) = reset_command c st.
Proof.
  unfold set_command, reset_command, set_commands.
  cbn [commands video_widget video_frame new_settings model camera
       point_extractor point_tracker t_MH gui started trace].
  split; [apply land_lnot_self|].
  split; [apply land_lor_self|].
  split; [rewrite land_lor_lnot; reflexivity|].
  split; [rewrite FlagFacts.lor_reset_same; reflexivity|].
  split; [rewrite FlagFacts.lor_set_same; reflexivity|].
  rewrite <- Z.land_assoc, Z.land_diag. reflexivity.
Qed.

(** When the two flags share no bit, setting or resetting one of them
    leaves the bits of the other as they were; calls on different flags
    commute. *)
Theorem commands_independent (c1 c2 : Command) (st : Tracker) :
  Z.land (bits c1) (bits c2) = 0%Z ->
  Z.land (commands (set_command c1 st)) (bits c2)
  = Z.land (commands st) (bits c2)
  /\ Z.land (commands (reset_command c1 st)) (bits c2)
     = Z.land (commands st) (bits c2)
  /\ set_command c1 (reset_command c2 st) = reset_command c2 (set_command c1 st).
Proof.
  intros Hd.
  unfold set_command, reset_command, set_commands.
  cbn [commands video_widget video_frame new_settings model camera
       point_extractor point_tracker t_MH gui started trace].
  split.
  { apply FlagFacts.land_ignores_disjoint. rewrite Z.land_comm. assumption. }
  split.
  { apply FlagFacts.land_reset_disjoint. rewrite Z.land_comm. assumption. }
  f_equal. apply Z.bits_inj'. intros n Hn.
  assert (Hb : Z.testbit (Z.land (bits c1) (bits c2)) n = false)
    by (rewrite Hd; apply Z.bits_0).
  rewrite Z.land_spec in Hb.
  rewrite !Z.lor_spec, !Z.land_spec, Z.lor_spec, Z.lnot_spec by assumption.
  destruct (Z.testbit (commands st) n), (Z.testbit (bits c1) n),
    (Z.testbit (bits c2) n); cbn in *; congruence.
Qed.

End CommandFacts.

(** ** Applying a snapshot *)

Section ApplyFacts.

Context {C : Collaborators} {B : CommandBits}.

Lemma apply_settings_fields (s : settings) (st : Tracker) :
  apply_settings s st
  = mkTracker (commands st) (video_widget st) (video_frame st)
      (new_settings st) (model_of s) (camera_of s (camera st))
      (extractor_of s) (point_tracker st) (offset_of s) (gui st)
      (started st)
      (Debug "Tracker::apply ends" :: Debug "Tracker:: Applying settings"
         :: trace st).
Proof. reflexivity. Qed.

(** [apply_inner] on a slot that holds the address [a] replaces the point
    model, the four extractor fields and the head-to-model offset by
    values that depend on the settings at [a] alone, whatever they were
    before; it hands the camera its index, then its resolution, then its
    frame rate; it logs its two lines; and it leaves the command flags,
    the pose in the point tracker and the widget pointers alone. *)
Theorem apply_inner_replaces (a : nat) (st : Tracker) :
  new_settings st = Ptr a ->
  let st' := apply_inner st in
  let s := settings_at a in
  model st' = model_of s
  /\ point_extractor st' = extractor_of s
  /\ t_MH st' = offset_of s
  /\ camera st' = camera_of s (camera st)
  /\ trace st' = Debug "Tracker::apply ends"
                 :: Debug "Tracker:: Applying settings" :: trace st
  /\ commands st' = commands st
  /\ point_tracker st' = point_tracker st
  /\ video_widget st' = video_widget st
  /\ video_frame st' = video_frame st
  /\ gui st' = gui st.
Proof.
  intros H st' s. unfold st'.
  rewrite (apply_inner_full a st H), apply_settings_fields.
  cbn [commands video_widget video_frame new_settings model camera
       point_extractor point_tracker t_MH gui started trace
       set_new_settings].
  fold s.
  split; [reflexivity|]. split; [reflexivity|]. split; [reflexivity|].
  split; [reflexivity|]. split; [reflexivity|]. split; [reflexivity|].
  split; [reflexivity|]. split; [reflexivity|]. split; reflexivity.
Qed.

End ApplyFacts.

(** ** Start and destruction *)

Section StartFacts.

Context {C : Collaborators} {B : CommandBits}.



Lemma start_tracker_returns (f : nat) (st : Tracker) :
  exists st',
    start_tracker (Ptr f) st = Done st'
    /\ video_frame st' = Ptr f
    /\ video_widget st' = Ptr (heap_top (gui st))
    /\ (forall g, g <> f -> layout_of (gui st') g = layout_of (gui st) g).
Proof.
  eexists. split; [reflexivity|]. cbn. split; [reflexivity|].
  split; [reflexivity|].
  intros g Hg. apply Nat.eqb_neq in Hg. rewrite Hg. reflexivity.
Qed.

(** Start, then destruction: the layout that [start_tracker] installed in
    the parent window is gone, the layouts of the other windows are the
    ones from before the start, and the loop, should it test its flags
    again, finds [ABORT] set. *)
Theorem start_then_destroy (f : nat) (st : Tracker) :
  exists st' st'',
    start_tracker (Ptr f) st = Done st'
    /\ Tracker_dtor st' = Done st''
    /\ layout_of (gui st'') f = NULL
    /\ (forall g, g <> f -> layout_of (gui st'') g = layout_of (gui st) g)
    /\ video_widget st'' = NULL
    /\ (abort_bit <> 0%Z -> loop_test st'' = false).
Proof.
  destruct (start_tracker_returns f st) as (st' & Hs & Hvf & _ & Hother).
  assert (Htest : forall s : Tracker,
             abort_bit <> 0%Z ->
             Z.eqb (Z.land (Z.lor (commands s) abort_bit) abort_bit) 0 = false).
  { intros s Hnz. rewrite land_lor_self. apply Z.eqb_neq. assumption. }
  exists st'. unfold Tracker_dtor.
  cbn [set_command set_started set_video_widget set_commands video_frame
       gui commands video_widget].
  rewrite Hvf.
  destruct (layout_of (gui st') f) as [|l] eqn:Hl.
  - eexists. split; [exact Hs|]. split; [reflexivity|]. cbn.
    split; [exact Hl|]. split; [exact Hother|]. split; [reflexivity|].
    apply Htest.
  - eexists. split; [exact Hs|]. split; [reflexivity|]. cbn.
    split; [rewrite Nat.eqb_refl; reflexivity|].
    split.
    { intros g Hg. rewrite <- (Hother g Hg).
      apply Nat.eqb_neq in Hg. rewrite Hg. reflexivity. }
    split; [reflexivity|]. apply Htest.
Qed.

End StartFacts.

(** ** Passes of the loop *)

Section PassFacts.

Context {C : Collaborators} {B : CommandBits}.

Lemma gui_apply_inner (st : Tracker) : gui (apply_inner st) = gui st.
Proof. unfold apply_inner. destruct (new_settings st); reflexivity. Qed.

Lemma started_apply_inner (st : Tracker) : started (apply_inner st) = started st.
Proof. unfold apply_inner. destruct (new_settings st); reflexivity. Qed.

(** A pass builds its result from the state after the settings were
    applied by changing the camera, the point tracker and the effects
    only. *)
Lemma loop_body_shape (dt : R) (st st' : Tracker) :
  loop_body dt st = Done st' ->
  exists cam pt evs,
    st' = mkTracker (commands st) (video_widget st) (video_frame st) NULL
            (model (apply_inner st)) cam (point_extractor (apply_inner st))
            pt (t_MH (apply_inner st)) (gui st) (started st)
            (evs ++ GetFrame dt :: trace (apply_inner st))
    /\ (evs = []
        \/ (exists f m, evs = [Display m; Extract f])
        \/ (exists f m pts, evs = [Display m; Track pts; Extract f]))
    /\ (pt = point_tracker st \/ exists f m pts, evs = [Display m; Track pts; Extract f]).
Proof.
  unfold loop_body. intros H.
  pose proof (new_settings_apply_inner st) as Hns.
  pose proof (video_widget_apply_inner st) as Hw.
  pose proof (video_frame_apply_inner st) as Hf.
  pose proof (gui_apply_inner st) as Hg.
  pose proof (started_apply_inner st) as Hst.
  pose proof (point_tracker_apply_inner st) as Hpt.
  assert (Hc : commands (apply_inner st) = commands st)
    by (unfold apply_inner; destruct (new_settings st); reflexivity).
  destruct (apply_inner st) as [c w f ns m cam0 e pt t g sd tr].
  cbn [commands video_widget video_frame new_settings gui started
       point_tracker model camera point_extractor t_MH trace] in *.
  subst c w f ns g sd pt.
  destruct (get_frame dt cam0) as [[new_frame frame] cam].
  destruct (new_frame && negb (frame_empty frame)).
  - cbn [emit set_camera point_extractor] in H.
    destruct (extract_points e frame) as [points marked].
    destruct (Nat.eqb (List.length points) N_POINTS);
      cbn [video_widget emit set_camera set_point_tracker] in H;
      (destruct (video_widget st); [discriminate|]);
      injection H as <-; cbn.
    + exists cam, (track points m (point_tracker st)),
        [Display (fold_left draw_cross points marked); Track points; Extract frame].
      split; [reflexivity|]. split; right; [right|]; eauto.
    + exists cam, (point_tracker st),
        [Display (fold_left draw_cross points marked); Extract frame].
      split; [reflexivity|]. split; [right; left; eauto | left; reflexivity].
  - injection H as <-. cbn.
    exists cam, (point_tracker st), [].
    split; [reflexivity|]. split; left; reflexivity.
Qed.

(** A pass that gets no frame, or an empty one, applies the pending
    settings, asks the camera, and does nothing else: no extraction, no
    tracking, nothing displayed; it returns even on a tracker that has no
    video widget. *)
Theorem pass_without_frame (dt : R) (st : Tracker)
    (new_frame : bool) (frame : Frame) (cam : Camera) :
  get_frame dt (camera (apply_inner st)) = (new_frame, frame, cam) ->
  new_frame = false \/ frame_empty frame = true ->
  loop_body dt st = Done (emit (GetFrame dt) (set_camera cam (apply_inner st)))
  /\ forall d, data (emit (GetFrame dt) (set_camera cam (apply_inner st))) d
               = data (apply_inner st) d.
Proof.
  intros Hget Hmiss. split.
  - unfold loop_body. rewrite Hget.
    assert (Hb : new_frame && negb (frame_empty frame) = false).
    { destruct Hmiss as [-> | ->]; [reflexivity|].
      destruct new_frame; reflexivity. }
    rewrite Hb. reflexivity.
  - intros d. apply data_ext; reflexivity.
Qed.

(** The loop on a tracker that has no video widget: the first pass that
    gets a non-empty frame ends in a null dereference, after the
    extraction, whatever the number of detections. *)
Theorem pass_without_widget (dt : R) (st : Tracker) (frame : Frame) (cam : Camera) :
  video_widget st = NULL ->
  get_frame dt (camera (apply_inner st)) = (true, frame, cam) ->
  frame_empty frame = false ->
  loop_body dt st = NullDeref.
Proof.
  intros Hw Hget Hne. unfold loop_body. rewrite Hget, Hne.
  cbn [andb negb emit set_camera point_extractor].
  destruct (extract_points (point_extractor (apply_inner st)) frame)
    as [points marked].
  destruct (Nat.eqb (List.length points) N_POINTS);
    cbn [video_widget emit set_camera set_point_tracker];
    rewrite video_widget_apply_inner, Hw; reflexivity.
Qed.

(** A pass on a frame with exactly [N_POINTS] detections, with the
    settings at [a] pending.  The camera is asked after it got those
    settings, the extractor runs with their thresholds and sizes, and
    [track] is called once, on the detections and on the model built from
    them; then the marked frame is displayed. *)
Theorem pass_uses_new_settings (dt : R) (a w : nat) (st : Tracker)
    (frame marked : Frame) (cam : Camera) (points : list Cv.Vec2f) :
  new_settings st = Ptr a ->
  video_widget st = Ptr w ->
  get_frame dt (camera_of (settings_at a) (camera st)) = (true, frame, cam) ->
  frame_empty frame = false ->
  extract_points (extractor_of (settings_at a)) frame = (points, marked) ->
  List.length points = N_POINTS ->
  exists st',
    loop_body dt st = Done st'
    /\ point_tracker st'
       = track points (model_of (settings_at a)) (point_tracker st)
    /\ trace st' = Display (fold_left draw_cross points marked)
                   :: Track points :: Extract frame :: GetFrame dt
                   :: Debug "Tracker::apply ends"
                   :: Debug "Tracker:: Applying settings" :: trace st
    /\ new_settings st' = NULL
    /\ t_MH st' = offset_of (settings_at a).
Proof.
  intros Hns Hw Hget Hne Hext Hlen.
  unfold loop_body.
  rewrite (apply_inner_full a st Hns), apply_settings_fields.
  cbn [camera set_new_settings]. rewrite Hget, Hne.
  cbn [andb negb emit set_camera point_extractor]. rewrite Hext.
  apply Nat.eqb_eq in Hlen. rewrite Hlen.
  cbn [video_widget emit set_camera set_point_tracker set_new_settings].
  rewrite Hw. eexists. split; [reflexivity|]. cbn.
  split; [reflexivity|]. split; [reflexivity|]. split; reflexivity.
Qed.

End PassFacts.

(** ** Runs of the loop *)

Section RunFacts.

Context {C : Collaborators} {B : CommandBits}.

Lemma trace_owner_ops (ops : list OwnerOp) (st : Tracker) :
  trace (owner_ops ops st) = trace st.
Proof.
  unfold owner_ops. generalize dependent st.
  induction ops as [|op ops IH]; intros st; cbn [fold_left].
  - reflexivity.
  - rewrite IH. destruct op; reflexivity.
Qed.

Lemma widgets_owner_ops (ops : list OwnerOp) (st : Tracker) :
  video_widget (owner_ops ops st) = video_widget st
  /\ gui (owner_ops ops st) = gui st
  /\ started (owner_ops ops st) = started st
  /\ point_tracker (owner_ops ops st) = point_tracker st.
Proof.
  unfold owner_ops. generalize dependent st.
  induction ops as [|op ops IH]; intros st; cbn [fold_left].
  - auto.
  - destruct (IH (owner_op st op)) as (-> & -> & -> & ->).
    destruct op; auto.
Qed.

Lemma count_events_apply_inner (p : Event -> bool) (st : Tracker) :
  (forall msg, p (Debug msg) = false) ->
  count_events p (apply_inner st) = count_events p st.
Proof.
  intros Hp. unfold apply_inner, count_events.
  destruct (new_settings st); cbn; rewrite ?Hp; reflexivity.
Qed.

(** The four counters of a state: frames asked for, extractions, calls
    of [track], frames displayed. *)
Lemma loop_body_counts (dt : R) (st st' : Tracker) :
  loop_body dt st = Done st' ->
  count_events is_get_frame st' = S (count_events is_get_frame st)
  /\ count_events is_extract st' <= S (count_events is_extract st)
  /\ count_events is_extract st <= count_events is_extract st'
  /\ count_events is_display st' + count_events is_extract st
     = count_events is_extract st' + count_events is_display st
  /\ count_events is_track st' + count_events is_extract st
     <= count_events is_extract st' + count_events is_track st
  /\ count_events is_track st <= count_events is_track st'.
Proof.
  intros H.
  destruct (loop_body_shape dt st st' H) as (cam & pt & evs & -> & Hevs & _).
  pose proof (count_events_apply_inner is_get_frame st (fun _ => eq_refl)) as Hg.
  pose proof (count_events_apply_inner is_extract st (fun _ => eq_refl)) as He.
  pose proof (count_events_apply_inner is_display st (fun _ => eq_refl)) as Hd.
  pose proof (count_events_apply_inner is_track st (fun _ => eq_refl)) as Ht.
  unfold count_events in *. cbn [trace].
  destruct Hevs as [-> | [(f & m & ->) | (f & m & pts & ->)]];
    cbn [app filter is_get_frame is_extract is_display is_track List.length];
    lia.
Qed.


Lemma run_returns (sched : list Tick) (st : Tracker) :
  video_widget st <> NULL -> exists r, run sched st = Done r.
Proof.
  generalize dependent st.
  induction sched as [|tk rest IH]; intros st Hw; cbn [run].
  - eexists. reflexivity.
  - destruct (loop_test (owner_ops (before_test tk) st));
      [|eexists; reflexivity].
    set (s0 := owner_ops (after_test tk) (owner_ops (before_test tk) st)).
    assert (Hw0 : video_widget s0 <> NULL).
    { unfold s0.
      rewrite (proj1 (widgets_owner_ops (after_test tk) _)),
        (proj1 (widgets_owner_ops (before_test tk) _)). assumption. }
    destruct (loop_body (dt_of tk) s0) as [s|] eqn:Hbody; cbn [bind].
    + apply IH.
      destruct (loop_body_shape _ _ _ Hbody) as (cam & pt & evs & -> & _).
      assumption.
    + exfalso. unfold loop_body in Hbody.
      destruct (get_frame (dt_of tk) (camera (apply_inner s0)))
        as [[new_frame frame] cam].
      destruct (new_frame && negb (frame_empty frame)); [|discriminate].
      cbn [emit set_camera point_extractor] in Hbody.
      destruct (extract_points (point_extractor (apply_inner s0)) frame)
        as [points marked].
      destruct (Nat.eqb (List.length points) N_POINTS);
        cbn [video_widget emit set_camera set_point_tracker] in Hbody;
        rewrite video_widget_apply_inner in Hbody;
        destruct (video_widget s0); congruence.
Qed.

(** A tracker that has its video widget never comes to a null
    dereference in its loop, whatever the camera delivers and the owner
    calls; and so for every tracker that [start_tracker] has started on
    a window. *)
Theorem run_with_widget_returns :
  (forall (sched : list Tick) (st : Tracker),
      video_widget st <> NULL -> exists r, run sched st = Done r)
  /\ (forall (f : nat) (st : Tracker) (ops : list OwnerOp) (sched : list Tick),
        exists st' r,
          start_tracker (Ptr f) st = Done st'
          /\ run sched (owner_ops ops st') = Done r).
Proof.
  split; [exact run_returns|].
  intros f st ops sched.
  destruct (start_tracker_returns f st) as (st' & Hs & _ & Hw & _).
  assert (Hw' : video_widget (owner_ops ops st') <> NULL).
  { rewrite (proj1 (widgets_owner_ops ops st')), Hw. discriminate. }
  destruct (run_returns sched _ Hw') as (r & Hr).
  exists st', r. split; assumption.
Qed.

(** Over any run that returns: the camera is asked at most once per
    tick, and exactly once per tick while the loop is not left; every
    frame that went to the extractor was displayed, and nothing else was;
    and [track] was called at most once per extraction. *)
Theorem run_counts (sched : list Tick) (st : Tracker) (r : RunState) :
  run sched st = Done r ->
  count_events is_get_frame (state_of r)
  <= count_events is_get_frame st + List.length sched
  /\ (forall st', r = Looping st' ->
        count_events is_get_frame st'
        = count_events is_get_frame st + List.length sched)
  /\ count_events is_display (state_of r) + count_events is_extract st
     = count_events is_extract (state_of r) + count_events is_display st
  /\ count_events is_extract (state_of r) + count_events is_get_frame st
     <= count_events is_get_frame (state_of r) + count_events is_extract st
  /\ count_events is_track (state_of r) + count_events is_extract st
     <= count_events is_extract (state_of r) + count_events is_track st.
Proof.
  generalize dependent st.
  induction sched as [|tk rest IH]; intros st H; cbn [run] in H.
  - injection H as <-. cbn [state_of List.length].
    split; [lia|]. split; [intros st' [= <-]; lia|]. lia.
  - set (s0 := owner_ops (before_test tk) st) in *.
    assert (Hc0 : forall p, count_events p s0 = count_events p st)
      by (intros p; unfold count_events, s0; rewrite trace_owner_ops; reflexivity).
    destruct (loop_test s0).
    + set (s1 := owner_ops (after_test tk) s0) in *.
      assert (Hc1 : forall p, count_events p s1 = count_events p st)
        by (intros p; rewrite <- Hc0; unfold count_events, s1;
            rewrite trace_owner_ops; reflexivity).
      destruct (loop_body (dt_of tk) s1) as [s|] eqn:Hbody;
        cbn [bind] in H; [|discriminate].
      pose proof (loop_body_counts _ _ _ Hbody) as (Hg & He1 & He2 & Hd & Ht & Ht2).
      pose proof (Hc1 is_get_frame) as Eg. pose proof (Hc1 is_extract) as Ee.
      pose proof (Hc1 is_display) as Ed. pose proof (Hc1 is_track) as Et.
      destruct (IH s H) as (Ig & Il & Id & Ie & It).
      cbn [List.length].
      split; [lia|]. split; [intros st' Hr; specialize (Il st' Hr); lia|]. lia.
    + injection H as <-. cbn [state_of List.length].
      assert (Hx : forall p, (forall msg, p (Debug msg) = false) ->
                 count_events p (emit (Debug "Tracker:: Thread stopping") s0)
                 = count_events p st).
      { intros p Hp. rewrite <- Hc0. unfold count_events. cbn. rewrite Hp.
        reflexivity. }
      rewrite (Hx is_get_frame), (Hx is_extract), (Hx is_display),
        (Hx is_track) by reflexivity.
      split; [lia|]. split; [intros st' [=]|]. lia.
Qed.

(** The loop only reads the widget pointers and never writes the command
    flags: over any run that returns, the video widget, the parent
    window, the widgets and the started mark are as before; and when the
    owner makes no call during the run, the command flags are as
    before. *)
Theorem run_keeps_widgets (sched : list Tick) (st : Tracker) (r : RunState) :
  run sched st = Done r ->
  video_widget (state_of r) = video_widget st
  /\ video_frame (state_of r) = video_frame st
  /\ gui (state_of r) = gui st
  /\ started (state_of r) = started st
  /\ (Forall (fun tk => before_test tk = [] /\ after_test tk = []) sched ->
      commands (state_of r) = commands st).
Proof.
  generalize dependent st.
  induction sched as [|tk rest IH]; intros st H; cbn [run] in H.
  - injection H as <-. cbn. auto.
  - pose proof (widgets_owner_ops (before_test tk) st) as (Hw0 & Hg0 & Hs0 & _).
    pose proof (video_frame_owner_ops (before_test tk) st) as Hf0.
    destruct (loop_test (owner_ops (before_test tk) st)).
    + pose proof (widgets_owner_ops (after_test tk)
                    (owner_ops (before_test tk) st)) as (Hw1 & Hg1 & Hs1 & _).
      pose proof (video_frame_owner_ops (after_test tk)
                    (owner_ops (before_test tk) st)) as Hf1.
      destruct (loop_body (dt_of tk)
                  (owner_ops (after_test tk) (owner_ops (before_test tk) st)))
        as [s|] eqn:Hbody; cbn [bind] in H; [|discriminate].
      destruct (IH s H) as (Iw & If & Ig & Is & Ic).
      pose proof (loop_body_commands _ _ _ Hbody) as Hc.
      destruct (loop_body_shape _ _ _ Hbody) as (cam & pt & evs & Hs & _).
      rewrite Hs in Iw, If, Ig, Is.
      cbn [video_widget video_frame gui started] in Iw, If, Ig, Is.
      split; [congruence|]. split; [congruence|]. split; [congruence|].
      split; [congruence|].
      intros Hq. inversion Hq as [|? ? [Hb Ha] Hq']; subst.
      rewrite (Ic Hq'), Hc, Hb, Ha. reflexivity.
    + injection H as <-. cbn [state_of emit video_widget video_frame gui
                                started commands].
      split; [assumption|]. split; [assumption|]. split; [assumption|].
      split; [assumption|].
      intros Hq. inversion Hq as [|? ? [Hb Ha] Hq']; subst.
      rewrite Hb. reflexivity.
Qed.





End RunFacts.

(** ** The angles [data] returns *)

Module AngleFacts.
Import Cv.
Local Open Scope R_scope.







Lemma atan2_sin_cos (a : R) :
  - (PI / 2) < a < PI / 2 -> atan2 (sin a) (cos a) = a.
Proof.
  intros Ha. rewrite CvFacts.atan2_pos.
  - change (sin a / cos a) with (tan a). apply atan_tan. assumption.
  - apply cos_gt_0; lra.
Qed.

Lemma atan2_opp_sin_cos (a : R) :
  - (PI / 2) < a < PI / 2 -> atan2 (- sin a) (cos a) = - a.
Proof.
  intros Ha. rewrite CvFacts.atan2_pos.
  - replace (- sin a / cos a) with (- tan a) by (unfold tan; field;
      apply Rgt_not_eq, cos_gt_0; lra).
    rewrite atan_opp, atan_tan by assumption. reflexivity.
  - apply cos_gt_0; lra.
Qed.

Lemma atan2_0_pos (x : R) : 0 < x -> atan2 0 x = 0.
Proof.
  intros Hx. rewrite CvFacts.atan2_pos by assumption.
  replace (0 / x) with 0 by (field; lra). apply atan_0.
Qed.

End AngleFacts.

Section PoseAngleFacts.

Context {C : Collaborators} {B : CommandBits}.
Local Open Scope R_scope.

(** The three angles in terms of the entries of the stored rotation. *)
Lemma angles_from_pose (st : Tracker) (d : THeadPoseData) :
  let M := Aff.R_ (pose (point_tracker st)) in
  data st d Yaw = rad2deg * Cv.atan2 (Cv.m02 M) (Cv.m22 M)
  /\ data st d Pitch
     = - rad2deg * Cv.atan2 (Cv.m12 M)
                     (sqrt (Cv.m10 M * Cv.m10 M + Cv.m11 M * Cv.m11 M))
  /\ data st d Roll = rad2deg * Cv.atan2 (- Cv.m10 M) (Cv.m11 M).
Proof.
  intros M.
  destruct (data_unfold st d) as (Hy & Hp & Hr & _).
  unfold Aff.compose in Hy, Hp, Hr. cbn [Aff.R_ Aff.t_] in Hy, Hp, Hr.
  rewrite CvFacts.mul_eye_r in Hy, Hp, Hr. fold M in Hy, Hp, Hr.
  destruct (conjugate_entries M) as (E00 & E10 & E20 & E21 & E22).
  cbv zeta in E00, E10, E20, E21, E22.
  unfold euler_angles in Hy, Hp, Hr. cbn [fst snd] in Hy, Hp, Hr.
  rewrite E00, E10, E20, E21, E22 in *.
  rewrite Hy, Hp, Hr. rewrite Ropp_involutive.
  replace (- Cv.m10 M * - Cv.m10 M) with (Cv.m10 M * Cv.m10 M) by ring.
  split; [reflexivity|]. split; reflexivity.
Qed.


(** The three angles depend on the rotation of the stored pose only: not
    on its translation, not on the head-to-model offset, not on the array
    they are written to. *)
Theorem angles_depend_on_rotation (st1 st2 : Tracker) (d1 d2 : THeadPoseData) :
  Aff.R_ (pose (point_tracker st1)) = Aff.R_ (pose (point_tracker st2)) ->
  data st1 d1 Yaw = data st2 d2 Yaw
  /\ data st1 d1 Pitch = data st2 d2 Pitch
  /\ data st1 d1 Roll = data st2 d2 Roll.
Proof.
  intros H.
  destruct (angles_from_pose st1 d1) as (Hy1 & Hp1 & Hr1).
  destruct (angles_from_pose st2 d2) as (Hy2 & Hp2 & Hr2).
  cbv zeta in *. rewrite Hy1, Hp1, Hr1, Hy2, Hp2, Hr2, H.
  split; [reflexivity|]. split; reflexivity.
Qed.

(** A head turned by less than a quarter turn about the camera's y axis
    reads as that angle of yaw, in degrees, with no pitch and no roll. *)
Theorem turn_about_y_is_yaw (a : R) (st : Tracker) (d : THeadPoseData) :
  Aff.R_ (pose (point_tracker st)) = Rot.about_y a ->
  - (PI / 2) < a < PI / 2 ->
  data st d Yaw = rad2deg * a
  /\ data st d Pitch = 0
  /\ data st d Roll = 0.
Proof.
  intros HM Ha.
  destruct (angles_from_pose st d) as (Hy & Hp & Hr).
  cbv zeta in Hy, Hp, Hr. rewrite HM in Hy, Hp, Hr.
  cbn [Rot.about_y Cv.m02 Cv.m22 Cv.m12 Cv.m10 Cv.m11] in Hy, Hp, Hr.
  rewrite Hy, Hp, Hr.
  rewrite AngleFacts.atan2_sin_cos by assumption.
  replace (0 * 0 + 1 * 1) with 1 by ring.
  rewrite sqrt_1, Ropp_0, CvFacts.atan2_0_1.
  split; [reflexivity|]. split; ring.
Qed.

(** A head turned by less than a quarter turn about the camera's x axis
    reads as that angle of pitch, in degrees, with no yaw and no roll. *)
Theorem turn_about_x_is_pitch (a : R) (st : Tracker) (d : THeadPoseData) :
  Aff.R_ (pose (point_tracker st)) = Rot.about_x a ->
  - (PI / 2) < a < PI / 2 ->
  data st d Yaw = 0
  /\ data st d Pitch = rad2deg * a
  /\ data st d Roll = 0.
Proof.
  intros HM Ha.
  assert (Hc : 0 < cos a) by (apply cos_gt_0; lra).
  destruct (angles_from_pose st d) as (Hy & Hp & Hr).
  cbv zeta in Hy, Hp, Hr. rewrite HM in Hy, Hp, Hr.
  cbn [Rot.about_x Cv.m02 Cv.m22 Cv.m12 Cv.m10 Cv.m11] in Hy, Hp, Hr.
  rewrite Hy, Hp, Hr.
  replace (0 * 0 + cos a * cos a) with (cos a * cos a) by ring.
  rewrite sqrt_square by lra.
  rewrite AngleFacts.atan2_opp_sin_cos by assumption.
  rewrite Ropp_0, AngleFacts.atan2_0_pos by assumption.
  split; [ring|]. split; ring.
Qed.

(** A head turned by less than a quarter turn about the camera's z axis
    reads as the opposite of that angle of roll, in degrees, with no yaw
    and no pitch. *)
Theorem turn_about_z_is_roll (a : R) (st : Tracker) (d : THeadPoseData) :
  Aff.R_ (pose (point_tracker st)) = Rot.about_z a ->
  - (PI / 2) < a < PI / 2 ->
  data st d Yaw = 0
  /\ data st d Pitch = 0
  /\ data st d Roll = - (rad2deg * a).
Proof.
  intros HM Ha.
  destruct (angles_from_pose st d) as (Hy & Hp & Hr).
  cbv zeta in Hy, Hp, Hr. rewrite HM in Hy, Hp, Hr.
  cbn [Rot.about_z Cv.m02 Cv.m22 Cv.m12 Cv.m10 Cv.m11] in Hy, Hp, Hr.
  rewrite Hy, Hp, Hr.
  replace (sin a * sin a + cos a * cos a) with 1
    by (pose proof (sin2_cos2 a) as H; unfold Rsqr in H; lra).
  rewrite sqrt_1, CvFacts.atan2_0_1.
  rewrite AngleFacts.atan2_opp_sin_cos by assumption.
  split; [ring|]. split; ring.
Qed.

End PoseAngleFacts.

(* ------------------------------------------------------------------ *)
(** * The statements at work in the concrete world *)

Module Witness.
Import Demo.

#[local] Existing Instance collab.
#[local] Existing Instance flag_bits.

Local Open Scope R_scope.

Lemma after_start_eq : start_tracker (Ptr 0) fresh = Done after_start.
Proof. vm_compute. reflexivity. Qed.

Lemma after_pass_eq : loop_body 0 with_pending = Done after_pass.
Proof. vm_compute. reflexivity. Qed.

Lemma apply_inner_noop_witness :
  new_settings fresh = NULL
  /\ (apply_inner fresh = fresh
      /\ model (apply_inner fresh) = model fresh
      /\ camera (apply_inner fresh) = camera fresh
      /\ point_extractor (apply_inner fresh) = point_extractor fresh
      /\ t_MH (apply_inner fresh) = t_MH fresh
      /\ trace (apply_inner fresh) = trace fresh).
Proof.
  split; [reflexivity | apply (apply_inner_noop fresh); reflexivity].
Defined.

Lemma identity_pose_reads_zero_witness :
  pose (point_tracker fresh) = Aff.identity
  /\ t_MH fresh = Cv.zero3
  /\ (forall ax,
         data (set_model (PointModel_make (Cv.mkVec3f 0 40 (-30)) (Cv.mkVec3f 0 40 30)) fresh)
           zeros ax = 0)
  /\ (data fresh zeros Yaw = 0 /\ data fresh zeros Pitch = 0
      /\ data fresh zeros Roll = 0).
Proof.
  split; [reflexivity|]. split; [reflexivity|].
  split.
  - intros ax.
    apply (proj2 identity_pose_reads_zero
             (Cv.mkVec3f 0 40 (-30)) (Cv.mkVec3f 0 40 30) fresh zeros ax);
      reflexivity.
  - apply (proj1 identity_pose_reads_zero fresh zeros);
      cbv [fresh Tracker_ctor pose point_tracker t_MH collab Aff.compose
           Aff.identity Aff.R_ Aff.t_ Cv.mul Cv.transpose Cv.build Cv.eye
           Cv.at_ Cv.dot3 fold_left R_EG Nat.eqb
           Cv.m00 Cv.m01 Cv.m02 Cv.m10 Cv.m11 Cv.m12 Cv.m20 Cv.m21 Cv.m22];
      lra.
Defined.

Lemma short_detection_keeps_pose_witness :
  get_frame 0 (camera (apply_inner (started_with [two_points] NULL 0)))
  = (true, two_points, [])
  /\ frame_empty two_points = false
  /\ extract_points
       (point_extractor (apply_inner (started_with [two_points] NULL 0)))
       two_points = (two_points, two_points)
  /\ List.length two_points <> N_POINTS
  /\ video_widget (started_with [two_points] NULL 0) = Ptr 1
  /\ new_settings (started_with [two_points] NULL 0) = NULL
  /\ exists st',
      loop_body 0 (started_with [two_points] NULL 0) = Done st'
      /\ point_tracker st' = point_tracker (started_with [two_points] NULL 0)
      /\ filter is_track (trace st') = []
      /\ forall d ax,
          data st' d ax = data (started_with [two_points] NULL 0) d ax.
Proof.
  split; [reflexivity|]. split; [reflexivity|]. split; [reflexivity|].
  split; [discriminate|]. split; [reflexivity|]. split; [reflexivity|].
  destruct (proj1 short_detection_keeps_pose 0
              (started_with [two_points] NULL 0) two_points [] two_points
              two_points 1%nat)
    as (st' & Hstep & Hpt & _ & Htr & _ & Hdata);
    [reflexivity | reflexivity | reflexivity | discriminate | reflexivity |].
  exists st'. split; [exact Hstep|]. split; [exact Hpt|].
  split; [exact Htr|]. apply Hdata. reflexivity.
Defined.

(** With [PAUSE] set and [ABORT] clear the loop makes its pass; the owner
    sets [ABORT] during that pass and the next test leaves the loop. *)
Lemma abort_ends_loop_witness :
  abort_bit <> 0%Z
  /\ Z.land abort_bit pause_bit = 0%Z
  /\ Z.land (commands (started_with [two_points] NULL 2)) abort_bit = 0%Z
  /\ loop_test (set_command PAUSE (started_with [two_points] NULL 2)) = true
  /\ run [mkTick [] [OpSet ABORT] 0; quiet] (started_with [two_points] NULL 2)
     = (st' <- loop_body (dt_of (mkTick [] [OpSet ABORT] 0))
                 (owner_ops [OpSet ABORT] (started_with [two_points] NULL 2)) ;;
        Done (Exited (emit (Debug "Tracker:: Thread stopping") st')))
  /\ run [mkTick [OpSet ABORT] [] 0; quiet] (started_with [two_points] NULL 2)
     = Done (Exited (emit (Debug "Tracker:: Thread stopping")
                       (set_command ABORT (started_with [two_points] NULL 2)))).
Proof.
  assert (Hnz : abort_bit <> 0%Z) by discriminate.
  assert (Hdj : Z.land abort_bit pause_bit = 0%Z) by reflexivity.
  split; [exact Hnz|]. split; [exact Hdj|]. split; [reflexivity|].
  split.
  - apply (abort_ends_loop Hnz Hdj (mkTick [] [OpSet ABORT] 0) [quiet]
             (started_with [two_points] NULL 2)).
    reflexivity.
  - split.
    + apply (abort_ends_loop Hnz Hdj (mkTick [] [OpSet ABORT] 0) [quiet]
               (started_with [two_points] NULL 2)) with (tk2 := quiet) (rest2 := []).
      * reflexivity.
      * reflexivity.
      * left. reflexivity.
      * intros [H | []]. discriminate.
      * intros [].
    + apply (abort_ends_loop Hnz Hdj (mkTick [OpSet ABORT] [] 0) [quiet]
               (started_with [two_points] NULL 2)).
      * left. reflexivity.
      * intros [H | []]. discriminate.
Defined.

(** One run in which the owner calls [StopTracker] before the first test,
    and one in which it does not. *)
Lemma pause_does_not_interfere_witness :
  Z.land abort_bit pause_bit = 0%Z
  /\ Forall2 tick_sim [mkTick [OpSet PAUSE] [] 16000000; quiet] [quiet; quiet]
  /\ pause_eq (started_with [three_points; two_points] NULL 2)
       (started_with [three_points; two_points] NULL 0)
  /\ run_sim
       (run [mkTick [OpSet PAUSE] [] 16000000; quiet]
          (started_with [three_points; two_points] NULL 2))
       (run [quiet; quiet] (started_with [three_points; two_points] NULL 0)).
Proof.
  assert (Hdj : Z.land abort_bit pause_bit = 0%Z) by reflexivity.
  assert (Hs : Forall2 tick_sim [mkTick [OpSet PAUSE] [] 16000000; quiet]
                 [quiet; quiet]).
  { constructor.
    - split; [|split; [|reflexivity]].
      + apply sim_left; [reflexivity | apply sim_nil].
      + apply sim_nil.
    - constructor; [|constructor].
      split; [|split; [|reflexivity]]; apply sim_nil. }
  assert (He : pause_eq (started_with [three_points; two_points] NULL 2)
                 (started_with [three_points; two_points] NULL 0))
    by reflexivity.
  split; [exact Hdj|]. split; [exact Hs|]. split; [exact He|].
  apply (pause_does_not_interfere Hdj _ _ Hs _ _ He).
Defined.

Lemma dtor_needs_start_witness :
  start_tracker (Ptr 0) fresh = Done after_start
  /\ run [] (owner_ops [OpApply 1] after_start)
     = Done (Looping (owner_ops [OpApply 1] after_start))
  /\ Tracker_dtor fresh = NullDeref
  /\ video_frame after_start = Ptr 0
  /\ Tracker_dtor after_start <> NullDeref
  /\ Tracker_dtor (owner_ops [OpApply 1] after_start) <> NullDeref.
Proof.
  pose proof after_start_eq as Hstart.
  assert (Hrun : run [] (owner_ops [OpApply 1] after_start)
                 = Done (Looping (owner_ops [OpApply 1] after_start)))
    by reflexivity.
  split; [exact Hstart|]. split; [exact Hrun|].
  split.
  - apply (proj1 (proj2 dtor_needs_start) _ _ _ _ _ []).
  - destruct (proj2 (proj2 (proj2 dtor_needs_start)) _ _ _ _ _ _ Hstart Hrun)
      as (Hvf & _ & Hd & Hd').
    split; [exact Hvf|]. split; [exact Hd | exact Hd'].
Defined.

Lemma read_TX_identity (st : Tracker) (x : R) :
  point_tracker st = Aff.identity -> t_MH st = Cv.mkVec3f x 0 0 ->
  data st zeros TX = x / 10.
Proof.
  intros Hp Ht.
  destruct (data_unfold st zeros) as (_ & _ & _ & Hx & _).
  rewrite Hx. cbn [pose collab]. rewrite Hp, Ht.
  unfold Aff.compose, Aff.identity. cbn [Aff.R_ Aff.t_].
  rewrite CvFacts.mulv_eye, CvFacts.addv_zero_r. reflexivity.
Qed.

(** C4 as stated fails.  [with_pending] has an identity pose and a zero
    offset and [moved_settings] in its slot.  Its next pass gets a frame
    with two detections: the pose in the point tracker is kept, but the
    pass has applied the pending offset (10, 0, 0), and [data] returns
    TX = 1 after the pass where it returned TX = 0 before. *)
Lemma pending_offset_changes_read :
  get_frame 0 (camera (apply_inner with_pending)) = (true, two_points, [])
  /\ extract_points (point_extractor (apply_inner with_pending)) two_points
     = (two_points, two_points)
  /\ List.length two_points <> N_POINTS
  /\ loop_body 0 with_pending = Done after_pass
  /\ point_tracker after_pass = point_tracker with_pending
  /\ data with_pending zeros TX = 0
  /\ data after_pass zeros TX = 1
  /\ data after_pass zeros TX <> data with_pending zeros TX.
Proof.
  assert (H0 : data with_pending zeros TX = 0).
  { rewrite (read_TX_identity with_pending 0); [field | reflexivity | reflexivity]. }
  assert (H1 : data after_pass zeros TX = 1).
  { rewrite (read_TX_identity after_pass 10);
      [field | vm_compute; reflexivity | vm_compute; reflexivity]. }
  split; [vm_compute; reflexivity|]. split; [vm_compute; reflexivity|].
  split; [discriminate|]. split; [exact after_pass_eq|].
  split; [vm_compute; reflexivity|]. split; [exact H0|]. split; [exact H1|].
  rewrite H0, H1. lra.
Qed.

(** The schedule of C2 on two poses that differ in rotation and in
    translation: what [data] computes from is neither of them. *)
Lemma torn_pose_is_neither :
  exists c,
    Sync.exec Sync.torn_schedule (Sync.init Aff.identity turned) = Some c
    /\ Sync.published c = Some (Aff.mkAffine R_EG Cv.zero3)
    /\ Sync.published c <> Some Aff.identity
    /\ Sync.published c <> Some turned.
Proof.
  eexists. split; [apply SyncFacts.torn_schedule_result|].
  cbn [Sync.published Aff.R_ Aff.t_ Aff.identity turned].
  split; [reflexivity|].
  split; intros H; injection H; intros; lra.
Qed.

End Witness.

(* ------------------------------------------------------------------ *)
(** * The further properties at work in the concrete world *)

Module MoreWitness.
Import Demo.

#[local] Existing Instance collab.
#[local] Existing Instance flag_bits.

Local Open Scope R_scope.

Lemma after_busy_eq : run [quiet; quiet] busy = Done after_busy.
Proof. vm_compute. reflexivity. Qed.


Lemma commands_independent_witness :
  Z.land (bits ABORT) (bits PAUSE) = 0%Z
  /\ Z.land (commands (set_command ABORT fresh)) (bits PAUSE)
     = Z.land (commands fresh) (bits PAUSE)
  /\ Z.land (commands (reset_command ABORT fresh)) (bits PAUSE)
     = Z.land (commands fresh) (bits PAUSE)
  /\ set_command ABORT (reset_command PAUSE fresh)
     = reset_command PAUSE (set_command ABORT fresh).
Proof.
  split; [reflexivity | apply (commands_independent ABORT PAUSE fresh); reflexivity].
Defined.

Lemma apply_inner_replaces_witness :
  new_settings with_pending = Ptr 1
  /\ t_MH (apply_inner with_pending) = Cv.mkVec3f 10 0 0
  /\ point_extractor (apply_inner with_pending) = mkPointExtractor 128 128 2 50
  /\ point_tracker (apply_inner with_pending) = point_tracker with_pending.
Proof.
  assert (H : new_settings with_pending = Ptr 1) by reflexivity.
  destruct (apply_inner_replaces 1 with_pending H)
    as (_ & He & Ht & _ & _ & _ & Hp & _).
  split; [exact H|]. split; [exact Ht|]. split; [exact He | exact Hp].
Defined.



Lemma start_then_destroy_witness :
  abort_bit <> 0%Z
  /\ exists st' st'',
      start_tracker (Ptr 0) fresh = Done st'
      /\ Tracker_dtor st' = Done st''
      /\ layout_of (gui st'') 0 = NULL
      /\ layout_of (gui st'') 5 = layout_of (gui fresh) 5
      /\ loop_test st'' = false.
Proof.
  assert (Hnz : abort_bit <> 0%Z) by discriminate.
  destruct (start_then_destroy 0 fresh)
    as (st' & st'' & Hs & Hd & Hl & Ho & _ & Ht).
  split; [exact Hnz|]. exists st', st''.
  split; [exact Hs|]. split; [exact Hd|]. split; [exact Hl|].
  split; [apply Ho; discriminate | exact (Ht Hnz)].
Defined.

Lemma pass_without_frame_witness :
  get_frame 0 (camera (apply_inner (started_with [] (Ptr 1) 0)))
  = (false, [], [])
  /\ loop_body 0 (started_with [] (Ptr 1) 0)
     = Done (emit (GetFrame 0)
               (set_camera [] (apply_inner (started_with [] (Ptr 1) 0)))).
Proof.
  assert (H : get_frame 0 (camera (apply_inner (started_with [] (Ptr 1) 0)))
              = (false, [], [])) by reflexivity.
  split; [exact H|].
  apply (pass_without_frame 0 (started_with [] (Ptr 1) 0) false [] [] H).
  left. reflexivity.
Defined.

Lemma pass_without_widget_witness :
  video_widget (unstarted_with [two_points]) = NULL
  /\ get_frame 0 (camera (apply_inner (unstarted_with [two_points])))
     = (true, two_points, [])
  /\ frame_empty two_points = false
  /\ loop_body 0 (unstarted_with [two_points]) = NullDeref.
Proof.
  split; [reflexivity|]. split; [reflexivity|]. split; [reflexivity|].
  apply (pass_without_widget 0 (unstarted_with [two_points]) two_points []);
    reflexivity.
Defined.

Lemma pass_uses_new_settings_witness :
  new_settings (started_with [three_points] (Ptr 1) 0) = Ptr 1
  /\ video_widget (started_with [three_points] (Ptr 1) 0) = Ptr 1
  /\ get_frame 0 (camera_of (settings_at 1)
                    (camera (started_with [three_points] (Ptr 1) 0)))
     = (true, three_points, [])
  /\ frame_empty three_points = false
  /\ extract_points (extractor_of (settings_at 1)) three_points
     = (three_points, three_points)
  /\ List.length three_points = N_POINTS
  /\ exists st',
      loop_body 0 (started_with [three_points] (Ptr 1) 0) = Done st'
      /\ point_tracker st'
         = track three_points (model_of (settings_at 1))
             (point_tracker (started_with [three_points] (Ptr 1) 0))
      /\ t_MH st' = Cv.mkVec3f 10 0 0.
Proof.
  split; [reflexivity|]. split; [reflexivity|]. split; [reflexivity|].
  split; [reflexivity|]. split; [reflexivity|]. split; [reflexivity|].
  destruct (pass_uses_new_settings 0 1 1 (started_with [three_points] (Ptr 1) 0)
              three_points three_points [] three_points)
    as (st' & Hs & Hp & _ & _ & Ht); try reflexivity.
  exists st'. split; [exact Hs|]. split; [exact Hp | exact Ht].
Defined.

Lemma run_with_widget_returns_witness :
  video_widget busy <> NULL
  /\ (exists r, run [quiet; quiet] busy = Done r)
  /\ (exists st' r,
        start_tracker (Ptr 0) fresh = Done st'
        /\ run [quiet] (owner_ops [OpApply 1] st') = Done r).
Proof.
  assert (H : video_widget busy <> NULL) by discriminate.
  split; [exact H|].
  split.
  - apply (proj1 run_with_widget_returns [quiet; quiet] busy H).
  - apply (proj2 run_with_widget_returns 0%nat fresh [OpApply 1] [quiet]).
Defined.

(** Two ticks: the camera was asked twice, both frames were extracted
    and displayed, and [track] was called at most twice. *)
Lemma run_counts_witness :
  run [quiet; quiet] busy = Done after_busy
  /\ count_events is_get_frame (state_of after_busy) = 2%nat
  /\ count_events is_display (state_of after_busy)
     = count_events is_extract (state_of after_busy)
  /\ (count_events is_track (state_of after_busy)
      <= count_events is_extract (state_of after_busy))%nat.
Proof.
  pose proof after_busy_eq as H.
  destruct (run_counts [quiet; quiet] busy after_busy H)
    as (_ & Hl & Hd & _ & Ht).
  assert (H0 : forall p, count_events p busy = 0%nat) by reflexivity.
  rewrite !H0 in Hd, Ht.
  split; [exact H|].
  split.
  - assert (Hloop : exists st', after_busy = Looping st')
      by (vm_compute; eexists; reflexivity).
    destruct Hloop as (st' & Hst'). rewrite Hst'. cbn [state_of].
    rewrite (Hl st' Hst'), H0. reflexivity.
  - split; [lia | lia].
Defined.

Lemma run_keeps_widgets_witness :
  run [quiet; quiet] busy = Done after_busy
  /\ Forall (fun tk => before_test tk = [] /\ after_test tk = []) [quiet; quiet]
  /\ video_widget (state_of after_busy) = Ptr 1
  /\ video_frame (state_of after_busy) = Ptr 0
  /\ commands (state_of after_busy) = 0%Z.
Proof.
  pose proof after_busy_eq as H.
  assert (Hq : Forall (fun tk => before_test tk = [] /\ after_test tk = [])
                 [quiet; quiet])
    by (repeat constructor).
  destruct (run_keeps_widgets [quiet; quiet] busy after_busy H)
    as (Hw & Hf & _ & _ & Hc).
  split; [exact H|]. split; [exact Hq|].
  split; [exact Hw|]. split; [exact Hf | exact (Hc Hq)].
Defined.


Lemma angles_depend_on_rotation_witness :
  Aff.R_ (pose (point_tracker (looking Cv.eye)))
  = Aff.R_ (pose (point_tracker fresh))
  /\ data (looking Cv.eye) zeros Yaw = data fresh zeros Yaw
  /\ data (looking Cv.eye) zeros Pitch = data fresh zeros Pitch
  /\ data (looking Cv.eye) zeros Roll = data fresh zeros Roll.
Proof.
  split; [reflexivity|].
  apply (angles_depend_on_rotation (looking Cv.eye) fresh zeros zeros).
  reflexivity.
Defined.

Lemma quarter_of_PI : - (PI / 2) < PI / 4 < PI / 2.
Proof. pose proof PI_RGT_0. split; lra. Qed.

Lemma turn_about_y_is_yaw_witness :
  Aff.R_ (pose (point_tracker (looking (Rot.about_y (PI / 4)))))
  = Rot.about_y (PI / 4)
  /\ - (PI / 2) < PI / 4 < PI / 2
  /\ data (looking (Rot.about_y (PI / 4))) zeros Yaw = rad2deg * (PI / 4)
  /\ data (looking (Rot.about_y (PI / 4))) zeros Pitch = 0
  /\ data (looking (Rot.about_y (PI / 4))) zeros Roll = 0.
Proof.
  split; [reflexivity|]. split; [exact quarter_of_PI|].
  apply (turn_about_y_is_yaw (PI / 4) (looking (Rot.about_y (PI / 4))) zeros);
    [reflexivity | exact quarter_of_PI].
Defined.

Lemma turn_about_x_is_pitch_witness :
  Aff.R_ (pose (point_tracker (looking (Rot.about_x (PI / 4)))))
  = Rot.about_x (PI / 4)
  /\ - (PI / 2) < PI / 4 < PI / 2
  /\ data (looking (Rot.about_x (PI / 4))) zeros Yaw = 0
  /\ data (looking (Rot.about_x (PI / 4))) zeros Pitch = rad2deg * (PI / 4)
  /\ data (looking (Rot.about_x (PI / 4))) zeros Roll = 0.
Proof.
  split; [reflexivity|]. split; [exact quarter_of_PI|].
  apply (turn_about_x_is_pitch (PI / 4) (looking (Rot.about_x (PI / 4))) zeros);
    [reflexivity | exact quarter_of_PI].
Defined.

Lemma turn_about_z_is_roll_witness :
  Aff.R_ (pose (point_tracker (looking (Rot.about_z (PI / 4)))))
  = Rot.about_z (PI / 4)
  /\ - (PI / 2) < PI / 4 < PI / 2
  /\ data (looking (Rot.about_z (PI / 4))) zeros Yaw = 0
  /\ data (looking (Rot.about_z (PI / 4))) zeros Pitch = 0
  /\ data (looking (Rot.about_z (PI / 4))) zeros Roll = - (rad2deg * (PI / 4)).
Proof.
  split; [reflexivity|]. split; [exact quarter_of_PI|].
  apply (turn_about_z_is_roll (PI / 4) (looking (Rot.about_z (PI / 4))) zeros);
    [reflexivity | exact quarter_of_PI].
Defined.

End MoreWitness.
